(** * Ytdlcore: the job registry, the reclamation cycle and the request
    handlers of [app.py], as a shallow embedding.

    Conventions of the embedding.
    - A [datetime] is a [Z]: microseconds since the epoch, the resolution
      Python's [datetime] has; a [timedelta] is a [Z] of microseconds, so
      subtraction and comparison of dates are exact integer operations.
    - A call that may raise returns an [outcome]; an exception is
      represented by [str(e)], the only part of it the program uses.
    - A [str] is a [string]; one character of it is one [ascii].
    - What the program reads from its surroundings (the clock, the
      directory listing, the extraction collaborator, uuid4) is an explicit
      environment record passed to the handler.
    - Requests are handled one at a time. The reclamation thread may run
      its cycles while /download is blocked in a call of the collaborator:
      [download_video_amid] takes the cycles that fall into each call, and
      [download_video] is the handler with no cycle in between. *)

From Stdlib Require Import ZArith NArith Ascii String.
From stdpp Require Import gmap strings list fin_maps.

Local Open Scope Z_scope.

(** ** Python values the program manipulates *)

(** The result of a call: a value, or an exception carrying [str(e)]. *)
Inductive outcome (A : Type) : Type :=
  | Returned (a : A)
  | Raised (msg : string).
Arguments Returned {A} a.
Arguments Raised {A} msg.

Definition outcome_bind {A B : Type} (f : A → outcome B) (o : outcome A) : outcome B :=
  match o with
  | Returned a => f a
  | Raised msg => Raised msg
  end.

#[global] Instance outcome_ret : MRet outcome := λ A a, Returned a.
#[global] Instance outcome_mbind : MBind outcome := λ A B f o, outcome_bind f o.

(** JSON values: request payloads and [jsonify] bodies. *)
#[local] Unset Elimination Schemes.
Inductive json : Type :=
  | JNull
  | JBool (b : bool)
  | JNum (n : Z)
  | JStr (s : string)
  | JArr (items : list json)
  | JObj (fields : list (string * json)).
#[local] Set Elimination Schemes.

(** [d.get(k)] on a dict written as a list of items (first binding wins). *)
Fixpoint dict_get {V : Type} (k : string) (d : list (string * V)) : option V :=
  match d with
  | [] => None
  | (k', v) :: rest => if decide (k = k') then Some v else dict_get k rest
  end.

(** Python truthiness, as used by [if not x] and [if x]. *)
Definition str_truthy (s : string) : bool := negb (bool_decide (s = "")).

Definition opt_str_truthy (o : option string) : bool :=
  match o with
  | Some s => str_truthy s
  | None => false
  end.

Definition json_truthy (v : json) : bool :=
  match v with
  | JNull => false
  | JBool b => b
  | JNum n => negb (n =? 0)
  | JStr s => str_truthy s
  | JArr items => negb (bool_decide (List.length items = 0%nat))
  | JObj fields => negb (bool_decide (List.length fields = 0%nat))
  end.

Definition json_of_opt_str (o : option string) : json :=
  match o with Some s => JStr s | None => JNull end.

Definition json_of_opt_num (o : option Z) : json :=
  match o with Some n => JNum n | None => JNull end.

(** [s[:n]] on a string. *)
Fixpoint str_take (n : nat) (s : string) : string :=
  match n, s with
  | S n', String c s' => String c (str_take n' s')
  | _, _ => EmptyString
  end.

(** A Flask response: [jsonify(body), code]. *)
Record Response := { body : json; code : Z }.

Definition error_response (msg : string) (c : Z) : Response :=
  {| body := JObj [("error", JStr msg)]; code := c |}.

(** ** Configuration *)

Definition DOWNLOAD_DIR : string := "./downloads".
Definition COOKIE_FILE : string := "./cookies.txt".
Definition CLEANUP_INTERVAL : Z := 60.
Definition FILE_EXPIRY_TIME : Z := 300.

(** [timedelta(seconds=s)] *)
Definition timedelta (seconds : Z) : Z := seconds * 1000000.

(** [os.path.join(DOWNLOAD_DIR, filename)] for a name returned by
    [os.listdir]. *)
Definition path_join (dir filename : string) : string := dir +:+ "/" +:+ filename.

(** ** Extraction options *)

(** The entries of the options dict the orchestrator sets. The request
    headers and the extractor arguments are constant data handed to the
    collaborator and are left out. A retry count is a natural number. *)
Record YdlOptions := {
  opt_outtmpl : string;
  opt_format : string;
  opt_noplaylist : bool;
  opt_ignoreerrors : bool;
  opt_sleep_interval : Z;
  opt_max_sleep_interval : Z;
  opt_extractor_retries : Z;
  opt_file_access_retries : Z;
  opt_fragment_retries : Z;
  opt_retry_sleep_functions : list (string * (N → N));
  opt_cookiefile : option string;
  opt_quiet : bool
}.

(** [cookie_exists] is [os.path.exists(COOKIE_FILE)]. *)
Definition get_yt_dlp_options (quality format_type : string) (cookie_exists : bool)
  : YdlOptions :=
  {| opt_outtmpl := path_join DOWNLOAD_DIR "%(title)s.%(ext)s";
     opt_format :=
       quality +:+ "[ext=" +:+ format_type +:+ "]/best[ext=" +:+ format_type +:+ "]/best";
     opt_noplaylist := true;
     opt_ignoreerrors := false;
     opt_sleep_interval := 1;
     opt_max_sleep_interval := 5;
     opt_extractor_retries := 5;
     opt_file_access_retries := 5;
     opt_fragment_retries := 15;
     opt_retry_sleep_functions :=
       [ ("http", λ n, N.min (4 ^ n) 60);
         ("fragment", λ n, N.min (4 ^ n) 60);
         ("file_access", λ n, N.min (4 ^ n) 60);
         ("extractor", λ n, N.min (4 ^ n) 60) ]%N;
     opt_cookiefile := if cookie_exists then Some COOKIE_FILE else None;
     opt_quiet := false |}.

(** [ydl_opts['quiet'] = True] *)
Definition set_quiet (o : YdlOptions) : YdlOptions :=
  {| opt_outtmpl := opt_outtmpl o;
     opt_format := opt_format o;
     opt_noplaylist := opt_noplaylist o;
     opt_ignoreerrors := opt_ignoreerrors o;
     opt_sleep_interval := opt_sleep_interval o;
     opt_max_sleep_interval := opt_max_sleep_interval o;
     opt_extractor_retries := opt_extractor_retries o;
     opt_file_access_retries := opt_file_access_retries o;
     opt_fragment_retries := opt_fragment_retries o;
     opt_retry_sleep_functions := opt_retry_sleep_functions o;
     opt_cookiefile := opt_cookiefile o;
     opt_quiet := true |}.

(** The backoff schedule as the specification words it: it starts at one
    second, is multiplied by four at each retry and never exceeds sixty. *)
Fixpoint capped_backoff (n : nat) : N :=
  match n with
  | O => 1%N
  | S k => N.min (4 * capped_backoff k) 60
  end.

(** ** The job registry *)

Inductive Status := StDownloading | StCompleted | StError.

(** The string stored under ['status']. *)
Definition status_str (s : Status) : string :=
  match s with
  | StDownloading => "downloading"
  | StCompleted => "completed"
  | StError => "error"
  end.

#[global] Instance Status_eq_dec : EqDecision Status.
Proof. solve_decision. Defined.

(** One value of the [downloads] dict. *)
Record Job := {
  job_status : Status;
  job_timestamp : Z;
  job_url : string;
  job_filename : option string;
  job_error : option string
}.

#[global] Instance Job_eq_dec : EqDecision Job.
Proof. solve_decision. Defined.

Definition with_status (s : Status) (j : Job) : Job :=
  {| job_status := s; job_timestamp := job_timestamp j; job_url := job_url j;
     job_filename := job_filename j; job_error := job_error j |}.

Definition with_filename (f : string) (j : Job) : Job :=
  {| job_status := job_status j; job_timestamp := job_timestamp j; job_url := job_url j;
     job_filename := Some f; job_error := job_error j |}.

Definition with_error (m : string) (j : Job) : Job :=
  {| job_status := job_status j; job_timestamp := job_timestamp j; job_url := job_url j;
     job_filename := job_filename j; job_error := Some m |}.

(** ** The reclamation cycle: one iteration of [cleanup_files] *)

(** What [os.listdir], [os.path.isfile] and [os.path.getctime] report for
    one name of the download directory. [getctime] raises when the file
    has vanished since the listing. *)
Record DirEntry := {
  entry_name : string;
  entry_isfile : bool;
  entry_getctime : outcome Z
}.

Record CleanupEnv := {
  cl_now : Z;                              (* datetime.now() *)
  cl_listdir : outcome (list DirEntry);    (* os.listdir(DOWNLOAD_DIR) *)
  cl_remove : string → outcome unit        (* os.remove(filepath) *)
}.

(** The first loop: the paths of the regular files older than the expiry
    window. *)
Fixpoint files_to_remove (current_time : Z) (entries : list DirEntry)
  : outcome (list string) :=
  match entries with
  | [] => Returned []
  | e :: rest =>
      let filepath := path_join DOWNLOAD_DIR (entry_name e) in
      if entry_isfile e then
        file_time ← entry_getctime e;
        tail ← files_to_remove current_time rest;
        Returned (if bool_decide (current_time - file_time > timedelta FILE_EXPIRY_TIME)
                  then filepath :: tail else tail)
      else files_to_remove current_time rest
  end.

(** The second loop: each removal is tried on its own; what is printed. *)
Definition remove_files (remove : string → outcome unit) (paths : list string)
  : list string :=
  map (λ filepath,
         match remove filepath with
         | Returned _ => "Cleaned up: " +:+ filepath
         | Raised e => "Error cleaning up " +:+ filepath +:+ ": " +:+ e
         end) paths.

(** [expired_downloads]: the ids whose record is older than the window. *)
Definition expired_downloads (current_time : Z) (downloads : gmap string Job)
  : list string :=
  (filter (λ kv, current_time - job_timestamp kv.2 > timedelta FILE_EXPIRY_TIME)
          (map_to_list downloads)).*1.

(** [downloads.pop(download_id, None)] for each expired id. *)
Definition pop_all (ids : list string) (downloads : gmap string Job)
  : gmap string Job :=
  foldl (λ d download_id, delete download_id d) downloads ids.

Record CycleResult := {
  cycle_downloads : gmap string Job;   (* the registry after the cycle *)
  cycle_printed : list string          (* the lines printed *)
}.

(** The scan of the download directory: the listing, then the first loop. *)
Definition scan_expired_files (env : CleanupEnv) : outcome (list string) :=
  entries ← cl_listdir env; files_to_remove (cl_now env) entries.

(** The body of the [while True] loop, up to the [time.sleep]. The outer
    [try] covers both phases: an exception of the scan skips the removal
    of the files and of the records alike. *)
Definition cleanup_cycle (env : CleanupEnv) (downloads : gmap string Job)
  : CycleResult :=
  let current_time := cl_now env in
  match scan_expired_files env with
  | Returned paths =>
      {| cycle_downloads := pop_all (expired_downloads current_time downloads) downloads;
         cycle_printed := remove_files (cl_remove env) paths |}
  | Raised e =>
      {| cycle_downloads := downloads;
         cycle_printed := ["Error in cleanup: " +:+ e] |}
  end.

(** A finite prefix of the loop: one environment per cycle. *)
Definition cleanup_files (envs : list CleanupEnv) (downloads : gmap string Job)
  : gmap string Job :=
  foldl (λ d env, cycle_downloads (cleanup_cycle env d)) downloads envs.

(** ** Setting the cookie file: [parse_cookie_txt] and [/set-cookies] *)

(** The cookie file on disk ([None]: no such file) and how many times it
    was opened for writing. *)
Record Disk := {
  cookie_file : option string;
  cookie_opens : nat
}.

(** What [f.write(s)] and the closing of the file give for a [str]: the
    content is written, or an exception is raised (a character that cannot
    be encoded, an error of the device) after a part of the content,
    possibly none of it, has reached the file. *)
Inductive WriteResult :=
  | Written
  | WriteRaised (reached : string).

Record CookieEnv := {
  ck_get_json : outcome json;        (* request.get_json() *)
  ck_open : outcome unit;            (* open(COOKIE_FILE, 'w', encoding='utf-8') *)
  ck_write : string → WriteResult    (* f.write(cookie_content) and the close, for a str *)
}.

(** [open(.., 'w')] truncates the file; [f.write] of a value that is not
    a [str] raises [TypeError] before anything is written. Every exception
    is caught and turned into [False]. *)
Definition parse_cookie_txt (open_w : outcome unit) (write : string → WriteResult)
    (cookie_content : json) (disk : Disk) : bool * Disk :=
  match open_w with
  | Raised _ => (false, disk)
  | Returned _ =>
      match cookie_content with
      | JStr s =>
          match write s with
          | Written =>
              (true, {| cookie_file := Some s; cookie_opens := S (cookie_opens disk) |})
          | WriteRaised reached =>
              (false, {| cookie_file := Some reached; cookie_opens := S (cookie_opens disk) |})
          end
      | _ => (false, {| cookie_file := Some ""; cookie_opens := S (cookie_opens disk) |})
      end
  end.

Definition py_type_name (v : json) : string :=
  match v with
  | JNull => "NoneType"
  | JBool _ => "bool"
  | JNum _ => "int"
  | JStr _ => "str"
  | JArr _ => "list"
  | JObj _ => "dict"
  end.

(** [data.get(k, dflt)]: only a dict has the method. *)
Definition json_get (data : json) (k : string) (dflt : json) : outcome json :=
  match data with
  | JObj fields => Returned (default dflt (dict_get k fields))
  | _ => Raised ("'" +:+ py_type_name data +:+ "' object has no attribute 'get'")
  end.

Definition set_cookies (env : CookieEnv) (disk : Disk) : Response * Disk :=
  match (data ← ck_get_json env; json_get data "cookies" (JStr "")) with
  | Returned cookie_content =>
      if negb (json_truthy cookie_content) then
        (error_response "No cookie content provided" 400, disk)
      else
        let '(ok, disk') :=
          parse_cookie_txt (ck_open env) (ck_write env) cookie_content disk in
        if ok then
          ({| body := JObj [("message", JStr "Cookies set successfully")]; code := 200 |}, disk')
        else (error_response "Failed to parse cookies" 400, disk')
  | Raised e => (error_response ("Failed to set cookies: " +:+ e) 500, disk)
  end.

(** ** Metadata: [/info] *)

(** A key of the metadata dict whose value the program uses: the key is
    absent, or it holds [None], or it holds a value. *)
Inductive field (A : Type) : Type :=
  | Absent
  | Null
  | Value (a : A).
Arguments Absent {A}.
Arguments Null {A}.
Arguments Value {A} a.

(** [d.get(k, dflt)]: the default stands for an absent key only. *)
Definition field_get {A : Type} (dflt : A) (f : field A) : option A :=
  match f with
  | Absent => Some dflt
  | Null => None
  | Value a => Some a
  end.

(** [d.get(k)] *)
Definition field_value {A : Type} (f : field A) : option A :=
  match f with
  | Value a => Some a
  | _ => None
  end.

(** One element of [info['formats']]; a field is [None] when the key is
    absent. *)
Record Format := {
  fmt_format_id : option string;
  fmt_ext : option string;
  fmt_format_note : option string;
  fmt_filesize : option Z
}.

(** The metadata dict the collaborator returns. An [option] field is
    [None] when the key is absent or holds [None]: the program reads it
    with [info.get(k)] only. *)
Record Info := {
  info_title : field string;
  info_duration : option Z;
  info_uploader : option string;
  info_upload_date : option string;
  info_view_count : option Z;
  info_like_count : option Z;
  info_description : option string;
  info_thumbnail : option string;
  info_formats : field (list Format)
}.

Definition format_descriptor (f : Format) : json :=
  JObj [ ("format_id", json_of_opt_str (fmt_format_id f));
         ("ext", json_of_opt_str (fmt_ext f));
         ("quality", json_of_opt_str (fmt_format_note f));
         ("filesize", json_of_opt_num (fmt_filesize f)) ].

(** [info.get('description', '')[:500] + '...' if info.get('description') else ''] *)
Definition description_field (info : Info) : string :=
  if opt_str_truthy (info_description info)
  then str_take 500 (default "" (info_description info)) +:+ "..."
  else "".

(** [[{...} for f in info.get('formats', [])[:10]]]: [None] cannot be
    sliced. *)
Definition formats_field (info : Info) : outcome (list json) :=
  match field_get [] (info_formats info) with
  | Some formats => Returned (format_descriptor <$> take 10 formats)
  | None => Raised "'NoneType' object is not subscriptable"
  end.

Definition video_info (info : Info) : outcome json :=
  formats ← formats_field info;
  Returned
    (JObj [ ("title", json_of_opt_str (field_value (info_title info)));
            ("duration", json_of_opt_num (info_duration info));
            ("uploader", json_of_opt_str (info_uploader info));
            ("upload_date", json_of_opt_str (info_upload_date info));
            ("view_count", json_of_opt_num (info_view_count info));
            ("like_count", json_of_opt_num (info_like_count info));
            ("description", JStr (description_field info));
            ("thumbnail", json_of_opt_str (info_thumbnail info));
            ("formats", JArr formats) ]).

(** [with yt_dlp.YoutubeDL(ydl_opts) as ydl: body]. [opened] is what the
    constructor and [__enter__] give, [closed] what [__exit__] gives; the
    exit runs when the body returns and when it raises, and an exception
    of the exit replaces the outcome of the body. *)
Definition closing {A : Type} (closed : outcome unit) (r : outcome A) : outcome A :=
  match closed with
  | Returned _ => r
  | Raised e => Raised e
  end.

Definition with_ydl {A : Type} (opened closed : outcome unit) (body : outcome A)
  : outcome A :=
  match opened with
  | Returned _ => closing closed body
  | Raised e => Raised e
  end.

Record InfoEnv := {
  in_cookie_exists : bool;                               (* os.path.exists(COOKIE_FILE) *)
  in_open : outcome unit;                                (* yt_dlp.YoutubeDL(ydl_opts), __enter__ *)
  in_extract_info : YdlOptions → string → outcome Info;  (* ydl.extract_info(url, download=False) *)
  in_close : outcome unit                                (* __exit__ *)
}.

(** [args] is [request.args]. *)
Definition get_video_info (args : list (string * string)) (env : InfoEnv) : Response :=
  let url := dict_get "url" args in
  if negb (opt_str_truthy url) then error_response "URL parameter is required" 400
  else
    let ydl_opts := set_quiet (get_yt_dlp_options "best" "mp4" (in_cookie_exists env)) in
    match with_ydl (in_open env) (in_close env)
            (info ← in_extract_info env ydl_opts (default "" url); video_info info) with
    | Returned video_info => {| body := video_info; code := 200 |}
    | Raised e => error_response ("Failed to get video info: " +:+ e) 500
    end.

(** ** The download orchestrator: [/download] *)

(** A write to the [downloads] dict, in program order. *)
Inductive RegWrite :=
  | WCreate (download_id : string) (j : Job)      (* downloads[id] = {...} *)
  | WStatus (download_id : string) (s : Status)   (* downloads[id]['status'] = s *)
  | WFilename (download_id : string) (f : string) (* downloads[id]['filename'] = f *)
  | WError (download_id : string) (m : string).   (* downloads[id]['error'] = m *)

(** The registry, and the writes made to it so far. *)
Record Store := {
  st_downloads : gmap string Job;
  st_writes : list RegWrite
}.

(** A handler body: it reads and writes the store and returns or raises;
    the store survives an exception. *)
Definition Handler (A : Type) : Type := Store → outcome A * Store.

#[global] Instance handler_ret : MRet Handler := λ A a st, (Returned a, st).
#[global] Instance handler_bind : MBind Handler := λ A B f m st,
  match m st with
  | (Returned a, st') => f a st'
  | (Raised e, st') => (Raised e, st')
  end.

(** [try: body  except Exception as e: handler(str(e))] *)
Definition try_except {A : Type} (body : Handler A) (handler : string → Handler A)
  : Handler A :=
  λ st, match body st with
        | (Returned a, st') => (Returned a, st')
        | (Raised e, st') => handler e st'
        end.

Definition lift {A : Type} (o : outcome A) : Handler A := λ st, (o, st).

(** The cycles of the reclamation thread that run while the handler is
    blocked in the metadata query and in the download. *)
Record Reclaim := {
  during_extract_info : list CleanupEnv;
  during_download : list CleanupEnv
}.

Definition no_reclaim : Reclaim := {| during_extract_info := []; during_download := [] |}.

(** A call of the collaborator with outcome [o], during which the
    reclamation thread runs [cycles] on the registry. *)
Definition blocked {A : Type} (cycles : list CleanupEnv) (o : outcome A) : Handler A :=
  λ st, (o, {| st_downloads := cleanup_files cycles (st_downloads st);
               st_writes := st_writes st |}).

(** The [with] statement around a handler body (see [with_ydl]). *)
Definition with_ydl_handler {A : Type} (opened closed : outcome unit) (body : Handler A)
  : Handler A :=
  λ st, match opened with
        | Returned _ => let '(r, st') := body st in (closing closed r, st')
        | Raised e => (Raised e, st)
        end.

Definition get_downloads : Handler (gmap string Job) :=
  λ st, (Returned (st_downloads st), st).

(** [downloads[download_id] = j] *)
Definition create_record (download_id : string) (j : Job) : Handler unit :=
  λ st, (Returned (),
         {| st_downloads := <[download_id := j]> (st_downloads st);
            st_writes := st_writes st ++ [WCreate download_id j] |}).

(** [str(KeyError(k))] *)
Definition key_error (k : string) : string := "'" +:+ k +:+ "'".

(** [downloads[download_id][field] = v]: the subscript raises [KeyError]
    when the id is not in the dict. *)
Definition update_record (download_id : string) (w : RegWrite) (f : Job → Job)
  : Handler unit :=
  λ st, match st_downloads st !! download_id with
        | Some j =>
            (Returned (),
             {| st_downloads := <[download_id := f j]> (st_downloads st);
                st_writes := st_writes st ++ [w] |})
        | None => (Raised (key_error download_id), st)
        end.

Definition set_status (download_id : string) (s : Status) : Handler unit :=
  update_record download_id (WStatus download_id s) (with_status s).

Definition set_filename (download_id f : string) : Handler unit :=
  update_record download_id (WFilename download_id f) (with_filename f).

Definition set_error (download_id m : string) : Handler unit :=
  update_record download_id (WError download_id m) (with_error m).

(** The operands of the membership test of the scan: a file name is a
    [str], an element of the comprehension is a record of the registry. *)
Inductive pyval :=
  | PyStr (s : string)
  | PyDict (j : Job).

(** Python's [==]: a [str] never equals a [dict]. *)
Definition py_eq (a b : pyval) : bool :=
  match a, b with
  | PyStr s, PyStr t => bool_decide (s = t)
  | PyDict j, PyDict k => bool_decide (j = k)
  | _, _ => false
  end.

(** [x in l] *)
Definition py_in (x : pyval) (l : list pyval) : bool := existsb (py_eq x) l.

(** [[f for f in downloads.values() if f.get('filename')]]: the elements
    are the records [f] themselves. *)
Definition claimed (downloads : gmap string Job) : list pyval :=
  PyDict <$> filter (λ f, opt_str_truthy (job_filename f) = true) (map_to_list downloads).*2.

(** The scan for the downloaded file. Each name of the listing comes with
    the reading of [datetime.now()] made when it is examined. *)
Fixpoint find_downloaded_file (downloads : gmap string Job)
    (entries : list (DirEntry * Z)) : outcome (option string) :=
  match entries with
  | [] => Returned None
  | (e, now) :: rest =>
      let filename := entry_name e in
      if entry_isfile e && negb (py_in (PyStr filename) (claimed downloads)) then
        file_time ← entry_getctime e;
        if bool_decide (now - file_time < timedelta 30) then Returned (Some filename)
        else find_downloaded_file downloads rest
      else find_downloaded_file downloads rest
  end.

(** [c.isalnum() or c in (' ', '-', '_')], on ASCII. *)
Definition keep_char (c : ascii) : bool :=
  let n := N_of_ascii c in
  ((48 <=? n) && (n <=? 57) || (65 <=? n) && (n <=? 90) || (97 <=? n) && (n <=? 122)
   || (n =? 32) || (n =? 45) || (n =? 95))%N.

Fixpoint str_filter (p : ascii → bool) (s : string) : string :=
  match s with
  | EmptyString => EmptyString
  | String c s' => if p c then String c (str_filter p s') else str_filter p s'
  end.

Fixpoint rstrip (s : string) : string :=
  match s with
  | EmptyString => EmptyString
  | String c s' =>
      let r := rstrip s' in
      if Ascii.is_space c && negb (str_truthy r) then EmptyString else String c r
  end.

(** [expected_filename]; computed by the handler and not used afterwards. *)
Definition expected_filename (title format_type : string) : string :=
  rstrip (str_filter keep_char title) +:+ "." +:+ format_type.

(** [expected_path]: the characters of the title are iterated, and [None]
    is not iterable. *)
Definition expected_path (title : option string) (format_type : string) : outcome string :=
  match title with
  | Some title => Returned (path_join DOWNLOAD_DIR (expected_filename title format_type))
  | None => Raised "'NoneType' object is not iterable"
  end.

Record DownloadEnv := {
  dl_uuid : string;                                      (* str(uuid.uuid4()) *)
  dl_now : Z;                                            (* datetime.now() at creation *)
  dl_cookie_exists : bool;                               (* os.path.exists(COOKIE_FILE) *)
  dl_open : outcome unit;                                (* yt_dlp.YoutubeDL(ydl_opts), __enter__ *)
  dl_extract_info : YdlOptions → string → outcome Info;  (* ydl.extract_info(url, download=False) *)
  dl_download : YdlOptions → string → outcome unit;      (* ydl.download([url]) *)
  dl_listdir : outcome (list (DirEntry * Z));            (* os.listdir(DOWNLOAD_DIR), after the download *)
  dl_close : outcome unit                                (* __exit__ *)
}.

Definition completed_response (download_id downloaded_file title : string) : Response :=
  {| body := JObj [ ("download_id", JStr download_id);
                    ("status", JStr (status_str StCompleted));
                    ("filename", JStr downloaded_file);
                    ("download_url", JStr ("/file/" +:+ download_id));
                    ("title", JStr title) ];
     code := 200 |}.

(** The record stored at the start of the [try]. *)
Definition new_job (env : DownloadEnv) (url : string) : Job :=
  {| job_status := StDownloading; job_timestamp := dl_now env; job_url := url;
     job_filename := None; job_error := None |}.

(** The body of the [with] statement. *)
Definition download_steps (amid : Reclaim) (url format_type download_id : string)
    (ydl_opts : YdlOptions) (env : DownloadEnv) : Handler Response :=
  info ← blocked (during_extract_info amid) (dl_extract_info env ydl_opts url);
  let title := field_get "video" (info_title info) in
  lift (expected_path title format_type);;
  blocked (during_download amid) (dl_download env ydl_opts url);;
  downloads ← get_downloads;
  downloaded_file ← lift (entries ← dl_listdir env; find_downloaded_file downloads entries);
  if opt_str_truthy downloaded_file then
    let downloaded_file := default "" downloaded_file in
    set_status download_id StCompleted;;
    set_filename download_id downloaded_file;;
    mret (completed_response download_id downloaded_file (default "" title))
  else
    set_status download_id StError;;
    set_error download_id "Downloaded file not found";;
    mret (error_response "Downloaded file not found" 500).

(** The body of the [try]. *)
Definition download_attempt (amid : Reclaim) (url quality format_type download_id : string)
    (env : DownloadEnv) : Handler Response :=
  create_record download_id (new_job env url);;
  let ydl_opts := set_quiet (get_yt_dlp_options quality format_type (dl_cookie_exists env)) in
  with_ydl_handler (dl_open env) (dl_close env)
    (download_steps amid url format_type download_id ydl_opts env).

(** The [except Exception as e] clause. *)
Definition download_failed (download_id e : string) : Handler Response :=
  set_status download_id StError;;
  set_error download_id e;;
  mret (error_response ("Download failed: " +:+ e) 500).

(** The view, with the cycles of the reclamation thread that fall into
    its calls of the collaborator; [args] is [request.args]. *)
Definition download_video_amid (amid : Reclaim) (args : list (string * string))
    (env : DownloadEnv) : Handler Response :=
  let url := dict_get "url" args in
  let quality := default "best" (dict_get "quality" args) in
  let format_type := default "mp4" (dict_get "format" args) in
  if negb (opt_str_truthy url) then mret (error_response "URL parameter is required" 400)
  else
    let download_id := dl_uuid env in
    try_except
      (download_attempt amid (default "" url) quality format_type download_id env)
      (download_failed download_id).

(** The view when no cycle runs during the request. *)
Definition download_video (args : list (string * string)) (env : DownloadEnv)
  : Handler Response :=
  download_video_amid no_reclaim args env.

(** ** The server as a sequence of operations on the registry *)

(** A request that ends in an exception leaves the store it reached. *)
Inductive Op :=
  | OpDownload (args : list (string * string)) (env : DownloadEnv)
  | OpDownloadAmid (amid : Reclaim) (args : list (string * string)) (env : DownloadEnv)
  | OpCleanup (env : CleanupEnv).

Definition step (st : Store) (op : Op) : Store :=
  match op with
  | OpDownload args env => (download_video args env st).2
  | OpDownloadAmid amid args env => (download_video_amid amid args env st).2
  | OpCleanup env =>
      {| st_downloads := cycle_downloads (cleanup_cycle env (st_downloads st));
         st_writes := st_writes st |}
  end.

(** [downloads = {}] *)
Definition init : Store := {| st_downloads := ∅; st_writes := [] |}.

Definition run (ops : list Op) : Store := foldl step init ops.

(** The statuses written for one id, in order. *)
Definition status_of_write (download_id : string) (w : RegWrite) : option Status :=
  match w with
  | WCreate i j => if decide (i = download_id) then Some (job_status j) else None
  | WStatus i s => if decide (i = download_id) then Some s else None
  | _ => None
  end.

Definition status_history (download_id : string) (ws : list RegWrite) : list Status :=
  omap (status_of_write download_id) ws.

(** The ids for which a run creates a record. *)
Definition created_ids (ops : list Op) : list string :=
  omap (λ op, match op with
              | OpDownload args env | OpDownloadAmid _ args env =>
                  if opt_str_truthy (dict_get "url" args) then Some (dl_uuid env) else None
              | OpCleanup _ => None
              end) ops.

(** ** Notions used to state the properties *)

(** The record of a job whose file was resolved, and of a job that
    failed with detail [m]. *)
Definition completed_job (env : DownloadEnv) (url downloaded_file : string) : Job :=
  {| job_status := StCompleted; job_timestamp := dl_now env; job_url := url;
     job_filename := Some downloaded_file; job_error := None |}.

Definition error_job (env : DownloadEnv) (url m : string) : Job :=
  {| job_status := StError; job_timestamp := dl_now env; job_url := url;
     job_filename := None; job_error := Some m |}.

(** A member of a JSON object. *)
Definition json_field (k : string) (v : json) : option json :=
  match v with
  | JObj fields => dict_get k fields
  | _ => None
  end.


(** The relation between the fields of a record as the specification
    words it: a field is set when it holds a non-empty string. *)
Definition fields_match_status_nonempty (j : Job) : Prop :=
  (opt_str_truthy (job_filename j) = true ↔ job_status j = StCompleted)
  ∧ (opt_str_truthy (job_error j) = true ↔ job_status j = StError)
  ∧ ¬ (opt_str_truthy (job_filename j) = true ∧ opt_str_truthy (job_error j) = true).

(** The relation the registry maintains: a completed record has a
    non-empty file name and no error detail; the error detail is a string
    (possibly the empty one) exactly in status error; a file name, when
    there is one, is non-empty and the status is completed or error. *)
Definition fields_match_status (j : Job) : Prop :=
  (job_status j = StCompleted
   → opt_str_truthy (job_filename j) = true ∧ job_error j = None)
  ∧ (is_Some (job_error j) ↔ job_status j = StError)
  ∧ (is_Some (job_filename j)
     → opt_str_truthy (job_filename j) = true ∧ job_status j ≠ StDownloading).

(** How a request that has stored its record and still finds it closes
    it: the record it leaves, the writes after the creation, and the
    response. *)
Inductive Settled (env : DownloadEnv) (url : string)
  : Job → list RegWrite → Response → Prop :=
  | settled_completed (downloaded_file title : string) :
      downloaded_file ≠ "" →
      Settled env url (completed_job env url downloaded_file)
        [WStatus (dl_uuid env) StCompleted; WFilename (dl_uuid env) downloaded_file]
        (completed_response (dl_uuid env) downloaded_file title)
  | settled_not_found :
      Settled env url (error_job env url "Downloaded file not found")
        [WStatus (dl_uuid env) StError; WError (dl_uuid env) "Downloaded file not found"]
        {| body := JObj [("error", JStr "Downloaded file not found")]; code := 500 |}
  | settled_failed (m : string) :
      Settled env url (error_job env url m)
        [WStatus (dl_uuid env) StError; WError (dl_uuid env) m]
        {| body := JObj [("error", JStr ("Download failed: " +:+ m))]; code := 500 |}
  | settled_completed_failed (downloaded_file m : string) :
      downloaded_file ≠ "" →
      Settled env url
        {| job_status := StError; job_timestamp := dl_now env; job_url := url;
           job_filename := Some downloaded_file; job_error := Some m |}
        [WStatus (dl_uuid env) StCompleted; WFilename (dl_uuid env) downloaded_file;
         WStatus (dl_uuid env) StError; WError (dl_uuid env) m]
        {| body := JObj [("error", JStr ("Download failed: " +:+ m))]; code := 500 |}
  | settled_not_found_failed (m : string) :
      Settled env url (error_job env url m)
        [WStatus (dl_uuid env) StError; WError (dl_uuid env) "Downloaded file not found";
         WStatus (dl_uuid env) StError; WError (dl_uuid env) m]
        {| body := JObj [("error", JStr ("Download failed: " +:+ m))]; code := 500 |}.


(** ** Concrete inputs *)

Definition ex_info (title : string) : Info :=
  {| info_title := Value title; info_duration := Some 212; info_uploader := Some "someone";
     info_upload_date := Some "20250101"; info_view_count := Some 1000;
     info_like_count := None; info_description := Some "A short clip";
     info_thumbnail := None; info_formats := Absent |}.

Definition ex_file (name : string) (created : Z) : DirEntry :=
  {| entry_name := name; entry_isfile := true; entry_getctime := Returned (timedelta created) |}.

(** A first download: it starts at second 0 and writes [a.mp4] at second 2;
    the directory is scanned at second 3. *)
Definition ex_first : DownloadEnv :=
  {| dl_uuid := "id-1"; dl_now := timedelta 0; dl_cookie_exists := false;
     dl_open := Returned ();
     dl_extract_info := λ _ _, Returned (ex_info "a");
     dl_download := λ _ _, Returned ();
     dl_listdir := Returned [(ex_file "a.mp4" 2, timedelta 3)];
     dl_close := Returned () |}.

(** A second download, of another video: it starts at second 10 and writes
    [b.mp4] at second 12; the directory, scanned at second 13, lists
    [a.mp4] before [b.mp4]. *)
Definition ex_second : DownloadEnv :=
  {| dl_uuid := "id-2"; dl_now := timedelta 10; dl_cookie_exists := false;
     dl_open := Returned ();
     dl_extract_info := λ _ _, Returned (ex_info "b");
     dl_download := λ _ _, Returned ();
     dl_listdir := Returned [(ex_file "a.mp4" 2, timedelta 13);
                             (ex_file "b.mp4" 12, timedelta 13)];
     dl_close := Returned () |}.

(** The collaborator raises with message [m] while fetching the metadata. *)
Definition ex_raising (m : string) : DownloadEnv :=
  {| dl_uuid := "id-3"; dl_now := timedelta 20; dl_cookie_exists := true;
     dl_open := Returned ();
     dl_extract_info := λ _ _, Raised m;
     dl_download := λ _ _, Returned ();
     dl_listdir := Returned [];
     dl_close := Returned () |}.


Definition ex_args (url : string) : list (string * string) := [("url", url)].

Definition ex_old_job : Job :=
  {| job_status := StDownloading; job_timestamp := timedelta 0;
     job_url := "https://example.org/v"; job_filename := None; job_error := None |}.

(** A cycle at second 301: the scan succeeds, the removal of the one old
    file fails. *)
Definition ex_cycle : CleanupEnv :=
  {| cl_now := timedelta 301;
     cl_listdir := Returned [ex_file "old.mp4" 0];
     cl_remove := λ _, Raised "[Errno 13] Permission denied" |}.

(** A cycle at second 301 in which a listed file has vanished when its
    creation time is read. *)
Definition ex_cycle_vanished : CleanupEnv :=
  {| cl_now := timedelta 301;
     cl_listdir := Returned [{| entry_name := "clip.mp4.part"; entry_isfile := true;
                                entry_getctime := Raised "[Errno 2] No such file or directory" |}];
     cl_remove := λ _, Returned () |}.

Definition ex_format (n : Z) : Format :=
  {| fmt_format_id := Some "f"; fmt_ext := Some "mp4"; fmt_format_note := None;
     fmt_filesize := Some n |}.

Definition ex_info_env (info : Info) : InfoEnv :=
  {| in_cookie_exists := false; in_open := Returned ();
     in_extract_info := λ _ _, Returned info; in_close := Returned () |}.

(** Metadata with twelve formats. *)
Definition ex_twelve_formats : Info :=
  {| info_title := Value "t"; info_duration := None; info_uploader := None;
     info_upload_date := None; info_view_count := None; info_like_count := None;
     info_description := Some "hello"; info_thumbnail := None;
     info_formats := Value (ex_format <$> [1; 2; 3; 4; 5; 6; 7; 8; 9; 10; 11; 12]) |}.

Definition ex_cookie_env (data : json) : CookieEnv :=
  {| ck_get_json := Returned data; ck_open := Returned (); ck_write := λ _, Written |}.

Definition ex_disk : Disk := {| cookie_file := Some "# Netscape HTTP Cookie File"; cookie_opens := 0 |}.

(** A description of 600 characters. *)
Fixpoint str_repeat (n : nat) (c : ascii) : string :=
  match n with
  | O => EmptyString
  | S k => String c (str_repeat k c)
  end.

(** Metadata with twelve formats and a long description. *)
Definition ex_long_description : Info :=
  {| info_title := Value "t"; info_duration := None; info_uploader := None;
     info_upload_date := None; info_view_count := None; info_like_count := None;
     info_description := Some (str_repeat 600 "x"); info_thumbnail := None;
     info_formats := Value (ex_format <$> [1; 2; 3; 4; 5; 6; 7; 8; 9; 10; 11; 12]) |}.

(** Metadata whose [formats] key holds [None]. *)
Definition ex_null_formats : Info :=
  {| info_title := Value "t"; info_duration := None; info_uploader := None;
     info_upload_date := None; info_view_count := None; info_like_count := None;
     info_description := Some "hello"; info_thumbnail := None;
     info_formats := Null |}.

(** The metadata query returns, and closing the collaborator raises. *)
Definition ex_info_close_fails (info : Info) : InfoEnv :=
  {| in_cookie_exists := true; in_open := Returned ();
     in_extract_info := λ _ _, Returned info;
     in_close := Raised "[Errno 13] Permission denied: './cookies.txt'" |}.

(** The download of the first example, but closing the collaborator
    raises after the file has been resolved. *)
Definition ex_close_fails : DownloadEnv :=
  {| dl_uuid := "id-5"; dl_now := timedelta 0; dl_cookie_exists := true;
     dl_open := Returned ();
     dl_extract_info := λ _ _, Returned (ex_info "a");
     dl_download := λ _ _, Returned ();
     dl_listdir := Returned [(ex_file "a.mp4" 2, timedelta 3)];
     dl_close := Raised "[Errno 13] Permission denied: './cookies.txt'" |}.



Definition ex_quiet_cycle (seconds : Z) : CleanupEnv :=
  {| cl_now := timedelta seconds; cl_listdir := Returned []; cl_remove := λ _, Returned () |}.


(** A cycle at second 60 during the metadata query and one at second 120
    during the download. *)
Definition ex_two_cycles : Reclaim :=
  {| during_extract_info := [ex_quiet_cycle 60];
     during_download := [ex_quiet_cycle 120] |}.

(** ** Serving a job: [/file/<download_id>] and [/status/<download_id>] *)

(** What a view returns besides a JSON body with a code. *)
Inductive Reply :=
  | ReplyJson (r : Response)
  | ReplyRecord (j : Job)                          (* jsonify(downloads[download_id]) *)
  | ReplyFile (filepath download_name : string).   (* send_file(filepath, as_attachment=True,
                                                      download_name=filename) *)

(** [os.path.join(dir, name)] for a directory without a trailing slash:
    an absolute [name] replaces the directory. *)
Definition os_path_join (dir name : string) : string :=
  match name with
  | String "/" _ => name
  | _ => dir +:+ "/" +:+ name
  end.

(** [path_exists] is [os.path.exists]. The subscript ['filename'] of a
    completed record is handed to [os.path.join], which raises
    [TypeError] on [None]; nothing catches it. *)
Definition get_file (download_id : string) (downloads : gmap string Job)
    (path_exists : string → bool) : outcome Reply :=
  match downloads !! download_id with
  | None => Returned (ReplyJson (error_response "Download ID not found" 404))
  | Some download_info =>
      if negb (bool_decide (job_status download_info = StCompleted)) then
        Returned (ReplyJson (error_response
          ("Download not completed. Status: " +:+ status_str (job_status download_info)) 400))
      else
        match job_filename download_info with
        | None => Raised "expected str, bytes or os.PathLike object, not NoneType"
        | Some filename =>
            let filepath := os_path_join DOWNLOAD_DIR filename in
            if negb (path_exists filepath) then
              Returned (ReplyJson (error_response "File not found" 404))
            else Returned (ReplyFile filepath filename)
        end
  end.


(** ** Cookies at start-up and by upload *)

(** [c.isspace()] for a character below 256: what [str.strip()] removes. *)
Definition py_isspace (c : ascii) : bool :=
  let n := N_of_ascii c in
  ((9 <=? n) && (n <=? 13) || (28 <=? n) && (n <=? 32) || (n =? 133) || (n =? 160))%N.

Fixpoint lstrip_ws (s : string) : string :=
  match s with
  | EmptyString => EmptyString
  | String c s' => if py_isspace c then lstrip_ws s' else s
  end.

Fixpoint rstrip_ws (s : string) : string :=
  match s with
  | EmptyString => EmptyString
  | String c s' =>
      let r := rstrip_ws s' in
      if py_isspace c && negb (str_truthy r) then EmptyString else String c r
  end.

(** [s.strip()] *)
Definition strip (s : string) : string := rstrip_ws (lstrip_ws s).

(** [initialize_cookies]: [path_exists] is [os.path.exists(COOKIE_FILE)],
    [read] what opening and reading the file gives. The value returned is
    modelled, the lines printed are not. *)
Definition initialize_cookies (path_exists : bool) (read : outcome string) : bool :=
  if path_exists then
    match read with
    | Returned content => str_truthy (strip content)
    | Raised _ => false
    end
  else false.

(** [os.path.exists(COOKIE_FILE)] on the modelled disk. *)
Definition cookie_exists (disk : Disk) : bool :=
  match cookie_file disk with Some _ => true | None => false end.

(** One part of [request.files]: its file name and what
    [file.read().decode('utf-8')] gives. *)
Record UploadedFile := {
  up_filename : string;
  up_decoded : outcome string
}.

(** [files] is [request.files], [open_w] the opening of the cookie file
    for writing, [write] the write of the decoded content. *)
Definition upload_cookies (files : list (string * UploadedFile)) (open_w : outcome unit)
    (write : string → WriteResult) (disk : Disk) : Response * Disk :=
  match dict_get "file" files with
  | None => (error_response "No file provided" 400, disk)
  | Some file =>
      if bool_decide (up_filename file = "") then
        (error_response "No file selected" 400, disk)
      else
        match up_decoded file with
        | Returned cookie_content =>
            let '(ok, disk') := parse_cookie_txt open_w write (JStr cookie_content) disk in
            if ok then
              ({| body := JObj [("message", JStr "Cookies uploaded successfully")];
                  code := 200 |}, disk')
            else (error_response "Failed to parse cookies" 400, disk')
        | Raised e => (error_response ("Upload failed: " +:+ e) 500, disk)
        end
  end.

(** The records stored for one id, in order. *)
Definition creation_of_write (download_id : string) (w : RegWrite) : option Job :=
  match w with
  | WCreate i j => if decide (i = download_id) then Some j else None
  | _ => None
  end.

Definition creations (download_id : string) (ws : list RegWrite) : list Job :=
  omap (creation_of_write download_id) ws.

(** ** Further concrete inputs *)

(** Three cycles, at seconds 60, 120 and 180; the scan of the second one
    fails. *)
Definition ex_three_cycles : list CleanupEnv :=
  [ {| cl_now := timedelta 60; cl_listdir := Returned []; cl_remove := λ _, Returned () |};
    {| cl_now := timedelta 120; cl_listdir := Raised "[Errno 5] Input/output error";
       cl_remove := λ _, Returned () |};
    {| cl_now := timedelta 180; cl_listdir := Returned [ex_file "a.mp4" 2];
       cl_remove := λ _, Returned () |} ].

(** A listing at second 400: an old file, a recent one, an old directory. *)
Definition ex_listing : list DirEntry :=
  [ ex_file "old.mp4" 10; ex_file "new.mp4" 350;
    {| entry_name := "tmp"; entry_isfile := false; entry_getctime := Returned (timedelta 0) |} ].

Definition ex_upload (name content : string) : list (string * UploadedFile) :=
  [("file", {| up_filename := name; up_decoded := Returned content |})].

(** Opening and reading the cookie file of the modelled disk. *)
Definition read_cookie_file (disk : Disk) : outcome string :=
  match cookie_file disk with
  | Some content => Returned content
  | None => Raised "[Errno 2] No such file or directory: './cookies.txt'"
  end.

(** * Properties *)

(** ** The retry backoff *)

Lemma backoff_values :
  map (λ n : N, N.min (4 ^ n) 60)%N [0; 1; 2; 3; 4; 10]%N = [1; 4; 16; 60; 60; 60]%N.
Proof. reflexivity. Qed.

(** The closure of the source and the schedule of the specification agree
    at every retry count. *)
Lemma backoff_capped (n : nat) : (N.min (4 ^ N.of_nat n) 60 = capped_backoff n)%N.
Proof.
  induction n as [|k IH].
  - reflexivity.
  - rewrite Nat2N.inj_succ, N.pow_succ_r'. cbn [capped_backoff].
    rewrite <- IH. generalize (4 ^ N.of_nat k)%N. intros p. lia.
Qed.

(** From the fourth attempt on the delay is the cap. *)
Lemma backoff_saturates (n : N) : (3 ≤ n → N.min (4 ^ n) 60 = 60)%N.
Proof.
  intros Hn. apply N.min_r.
  transitivity (4 ^ 3)%N; [by vm_compute|].
  apply N.pow_le_mono_r; [done|exact Hn].
Qed.

(** C8. In the options handed to the collaborator, each of the four
    failure categories (http, fragment, file_access, extractor) is bound
    to a sleep function that yields [min (4 ^ n) 60] seconds at every retry
    count [n], and no other category is bound. *)
Theorem retry_sleep_functions_backoff (quality format_type : string) (cookie_exists : bool) :
  let options := set_quiet (get_yt_dlp_options quality format_type cookie_exists) in
  Forall (λ category,
            ∃ sleep, dict_get category (opt_retry_sleep_functions options) = Some sleep
                     ∧ ∀ n : N, sleep n = N.min (4 ^ n) 60)
         ["http"; "fragment"; "file_access"; "extractor"]
  ∧ (opt_retry_sleep_functions options).*1 = ["http"; "fragment"; "file_access"; "extractor"].
Proof.
  cbn. split; [|reflexivity].
  repeat constructor; eexists; (split; [reflexivity|]); intros n; reflexivity.
Qed.

(** ** The reclamation cycle *)

Lemma lookup_pop_all (ids : list string) (d : gmap string Job) (k : string) :
  pop_all ids d !! k = if decide (k ∈ ids) then None else d !! k.
Proof.
  unfold pop_all. revert d. induction ids as [|i ids IH]; intros d.
  - destruct (decide (k ∈ [])) as [Hin|_]; [by apply elem_of_nil in Hin|done].
  - cbn [foldl]. rewrite IH.
    destruct (decide (k ∈ ids)) as [Hin|Hin], (decide (k ∈ i :: ids)) as [Hin'|Hin'];
      try done.
    + exfalso. apply Hin'. by right.
    + apply elem_of_cons in Hin' as [->|?]; [apply lookup_delete_eq|done].
    + apply lookup_delete_ne. intros ->. apply Hin'. by left.
Qed.

Lemma elem_of_expired_downloads (now : Z) (d : gmap string Job) (k : string) :
  k ∈ expired_downloads now d
  ↔ ∃ info, d !! k = Some info ∧ now - job_timestamp info > timedelta FILE_EXPIRY_TIME.
Proof.
  unfold expired_downloads. rewrite list_elem_of_fmap. split.
  - intros [[k' info] [-> [Hold Hin]%list_elem_of_filter]].
    apply elem_of_map_to_list in Hin. by exists info.
  - intros (info & Hk & Hold). exists (k, info). split; [done|].
    apply list_elem_of_filter. split; [done|]. by apply elem_of_map_to_list.
Qed.

(** What the registry phase does to each id. *)
Lemma lookup_pop_expired (now : Z) (d : gmap string Job) (k : string) :
  pop_all (expired_downloads now d) d !! k
  = match d !! k with
    | Some info =>
        if decide (now - job_timestamp info > timedelta FILE_EXPIRY_TIME)
        then None else Some info
    | None => None
    end.
Proof.
  rewrite lookup_pop_all. destruct (d !! k) as [info|] eqn:Hk.
  - repeat case_decide; try done.
    + match goal with H : k ∈ _ |- _ => apply elem_of_expired_downloads in H end.
      destruct H as (info' & Hk' & Hold). congruence.
    + match goal with H : k ∉ _ |- _ => exfalso; apply H end.
      apply elem_of_expired_downloads. eauto.
  - by case_decide.
Qed.

(** A cycle only removes records: it never alters one. *)
Lemma cleanup_cycle_subseteq (env : CleanupEnv) (d : gmap string Job) :
  cycle_downloads (cleanup_cycle env d) ⊆ d.
Proof.
  unfold cleanup_cycle. destruct (scan_expired_files env); simpl; [|done].
  apply map_subseteq_spec. intros k info. rewrite lookup_pop_expired.
  destruct (d !! k); [|done]. by case_decide.
Qed.

(** A record within the window survives the cycle. *)
Lemma cleanup_keeps_recent (env : CleanupEnv) (d : gmap string Job)
    (download_id : string) (info : Job) :
  d !! download_id = Some info →
  ¬ cl_now env - job_timestamp info > timedelta FILE_EXPIRY_TIME →
  cycle_downloads (cleanup_cycle env d) !! download_id = Some info.
Proof.
  intros Hk Hrecent. unfold cleanup_cycle.
  destruct (scan_expired_files env); simpl; [|done].
  rewrite lookup_pop_expired, Hk. by case_decide.
Qed.

(** When the scan raises, the cycle leaves the registry as it was. *)
Lemma cleanup_cycle_scan_raised (env : CleanupEnv) (d : gmap string Job) (e : string) :
  scan_expired_files env = Raised e →
  cleanup_cycle env d
  = {| cycle_downloads := d; cycle_printed := ["Error in cleanup: " +:+ e] |}.
Proof. intros Hscan. unfold cleanup_cycle. by rewrite Hscan. Qed.

(** A removal that fails is reported and the cycle goes on: one line is
    printed for each path. *)
Lemma remove_files_length (remove : string → outcome unit) (paths : list string) :
  List.length (remove_files remove paths) = List.length paths.
Proof. unfold remove_files. apply length_map. Qed.



(** ** The cookie endpoint *)



(** With content, the file is replaced by it when it can be opened and
    written. *)
Lemma set_cookies_with_content (env : CookieEnv) (disk : Disk)
    (fields : list (string * json)) (s : string) :
  ck_get_json env = Returned (JObj fields) →
  dict_get "cookies" fields = Some (JStr s) → s ≠ "" →
  ck_open env = Returned () → ck_write env s = Written →
  cookie_file (set_cookies env disk).2 = Some s ∧ code (set_cookies env disk).1 = 200.
Proof.
  intros Hdata Hcookies Hs Hopen Hwrite. unfold set_cookies. rewrite Hdata. cbn.
  rewrite Hcookies. cbn. unfold str_truthy. rewrite bool_decide_eq_false_2 by done.
  cbn. rewrite Hopen. cbn. by rewrite Hwrite.
Qed.

(** ** The metadata endpoint *)

Lemma str_take_length (n : nat) (s : string) :
  String.length (str_take n s) = Nat.min n (String.length s).
Proof.
  revert s. induction n as [|n IH]; intros [|c s]; cbn; try done. by rewrite IH.
Qed.

Lemma str_take_prefix (n : nat) (s : string) : ∃ rest, s = str_take n s +:+ rest.
Proof.
  revert s. induction n as [|n IH]; intros s.
  - exists s. by destruct s.
  - destruct s as [|c s]; [by exists ""|].
    destruct (IH s) as [rest Hrest]. exists rest.
    change (String c s = String c (str_take n s +:+ rest)). by f_equal.
Qed.

Lemma description_field_cases (info : Info) :
  description_field info
  = match info_description info with
    | Some (String c s) => str_take 500 (String c s) +:+ "..."
    | _ => ""
    end.
Proof. unfold description_field. by destruct (info_description info) as [[|c s]|]. Qed.

(** The description of the response never exceeds 503 characters. *)
Lemma description_field_length (info : Info) :
  (String.length (description_field info) ≤ 503)%nat.
Proof.
  rewrite description_field_cases.
  destruct (info_description info) as [[|c s]|]; cbn [String.length]; try lia.
  generalize (String c s). intros d.
  assert (Happ : ∀ a b, String.length (a +:+ b) = (String.length a + String.length b)%nat).
  { induction a as [|x a IHa]; intros b; [done|].
    change (S (String.length (a +:+ b)) = S (String.length a + String.length b)).
    by rewrite IHa. }
  rewrite Happ, str_take_length. cbn [String.length]. lia.
Qed.

Lemma formats_field_length (info : Info) (descriptors : list json) :
  formats_field info = Returned descriptors → (List.length descriptors ≤ 10)%nat.
Proof.
  unfold formats_field. destruct (field_get _ _) as [formats|]; [|done].
  intros [= <-]. rewrite length_fmap, length_take. lia.
Qed.

(** C9, as amended. When the collaborator opens, returns metadata whose
    [formats] key is absent or holds a list, and closes, the /info response
    is a 200 whose body has the nine members below. Its [formats] member
    lists one descriptor for each of the first ten formats of the metadata,
    in their order, so at most ten: the object with the members
    [format_id], [ext], [quality] (the [format_note] of the format) and
    [filesize], each [null] when the format lacks it. Its [description]
    member is a prefix of the description, of 500 characters or the whole
    of it when it is shorter, followed by an ellipsis, when the metadata
    has a non-empty description, and the empty string otherwise. *)
Theorem info_formats_and_description (args : list (string * string)) (env : InfoEnv)
    (url : string) (info : Info) (formats : list Format) :
  dict_get "url" args = Some url → url ≠ "" →
  in_open env = Returned () →
  in_extract_info env (set_quiet (get_yt_dlp_options "best" "mp4" (in_cookie_exists env))) url
    = Returned info →
  info_formats info = Value formats ∨ (info_formats info = Absent ∧ formats = []) →
  in_close env = Returned () →
  ∃ (descriptors : list json) (description : string),
    get_video_info args env
    = {| body :=
           JObj [ ("title", match info_title info with Value s => JStr s | _ => JNull end);
                  ("duration",
                   match info_duration info with Some n => JNum n | None => JNull end);
                  ("uploader",
                   match info_uploader info with Some s => JStr s | None => JNull end);
                  ("upload_date",
                   match info_upload_date info with Some s => JStr s | None => JNull end);
                  ("view_count",
                   match info_view_count info with Some n => JNum n | None => JNull end);
                  ("like_count",
                   match info_like_count info with Some n => JNum n | None => JNull end);
                  ("description", JStr description);
                  ("thumbnail",
                   match info_thumbnail info with Some s => JStr s | None => JNull end);
                  ("formats", JArr descriptors) ];
         code := 200 |}
    ∧ List.length descriptors = Nat.min 10 (List.length formats)
    ∧ (∀ (i : nat) (f : Format),
         (i < 10)%nat → formats !! i = Some f →
         descriptors !! i
         = Some (JObj [ ("format_id",
                         match fmt_format_id f with Some s => JStr s | None => JNull end);
                        ("ext", match fmt_ext f with Some s => JStr s | None => JNull end);
                        ("quality",
                         match fmt_format_note f with Some s => JStr s | None => JNull end);
                        ("filesize",
                         match fmt_filesize f with Some n => JNum n | None => JNull end) ]))
    ∧ match info_description info with
      | Some (String c s) =>
          ∃ prefix rest,
            String c s = prefix +:+ rest
            ∧ String.length prefix = Nat.min 500 (String.length (String c s))
            ∧ description = prefix +:+ "..."
      | _ => description = ""
      end.
Proof.
  intros Hurl Hne Hopen Hinfo Hformats Hclose.
  exists (format_descriptor <$> take 10 formats), (description_field info).
  split; [|split; [|split]].
  - unfold get_video_info. rewrite Hurl. change (default "" (Some url)) with url.
    cbn [opt_str_truthy]. unfold str_truthy.
    rewrite bool_decide_eq_false_2 by done. cbn [negb].
    rewrite Hopen, Hclose, Hinfo. cbn [with_ydl closing mbind outcome_mbind outcome_bind].
    unfold video_info, formats_field.
    assert (Hget : field_get [] (info_formats info) = Some formats)
      by (by destruct Hformats as [->|[-> ->]]).
    rewrite Hget. cbn [mbind outcome_mbind outcome_bind].
    unfold json_of_opt_str, json_of_opt_num, field_value.
    by destruct (info_title info).
  - by rewrite length_fmap, length_take.
  - intros i f Hi Hf. by rewrite list_lookup_fmap, lookup_take_lt, Hf.
  - rewrite description_field_cases.
    destruct (info_description info) as [[|c s]|]; [done| |done].
    destruct (str_take_prefix 500 (String c s)) as [rest Hrest].
    exists (str_take 500 (String c s)), rest.
    split; [done|]. split; [apply str_take_length|done].
Qed.

Lemma info_formats_and_description_witness :
  ∃ (descriptors : list json) (description : string),
    get_video_info (ex_args "https://example.org/v") (ex_info_env ex_long_description)
    = {| body :=
           JObj [ ("title", JStr "t"); ("duration", JNull); ("uploader", JNull);
                  ("upload_date", JNull); ("view_count", JNull); ("like_count", JNull);
                  ("description", JStr description); ("thumbnail", JNull);
                  ("formats", JArr descriptors) ];
         code := 200 |}
    ∧ List.length descriptors
      = Nat.min 10 (List.length (ex_format <$> [1; 2; 3; 4; 5; 6; 7; 8; 9; 10; 11; 12]))
    ∧ (∀ (i : nat) (f : Format),
         (i < 10)%nat → (ex_format <$> [1; 2; 3; 4; 5; 6; 7; 8; 9; 10; 11; 12]) !! i = Some f →
         descriptors !! i
         = Some (JObj [ ("format_id",
                         match fmt_format_id f with Some s => JStr s | None => JNull end);
                        ("ext", match fmt_ext f with Some s => JStr s | None => JNull end);
                        ("quality",
                         match fmt_format_note f with Some s => JStr s | None => JNull end);
                        ("filesize",
                         match fmt_filesize f with Some n => JNum n | None => JNull end) ]))
    ∧ ∃ prefix rest,
        str_repeat 600 "x" = prefix +:+ rest
        ∧ String.length prefix = Nat.min 500 (String.length (str_repeat 600 "x"))
        ∧ description = prefix +:+ "...".
Proof.
  apply (info_formats_and_description (ex_args "https://example.org/v")
           (ex_info_env ex_long_description) "https://example.org/v" ex_long_description
           (ex_format <$> [1; 2; 3; 4; 5; 6; 7; 8; 9; 10; 11; 12])).
  - reflexivity.
  - discriminate.
  - reflexivity.
  - reflexivity.
  - left. reflexivity.
  - reflexivity.
Defined.

(** Twelve formats and a description of 600 characters give ten
    descriptors and a description of 503 characters: 500 of the source and
    the ellipsis. *)
Lemma info_long_description :
  (∃ descriptors, formats_field ex_long_description = Returned descriptors
                  ∧ List.length descriptors = 10%nat)
  ∧ description_field ex_long_description = str_repeat 500 "x" +:+ "..."
  ∧ String.length (description_field ex_long_description) = 503%nat.
Proof. split; [eexists; split; reflexivity|]. vm_compute. done. Qed.

(** C9, the code at a failing input. Metadata whose [formats] key holds
    [None] cannot be sliced: the request is answered with 500 and an error
    object, which has neither format descriptors nor a description,
    although the metadata has the description ["hello"]. The same happens,
    with metadata that has a list of formats, when closing the collaborator
    raises. *)
Lemma info_null_formats_fails :
  get_video_info (ex_args "https://example.org/v") (ex_info_env ex_null_formats)
  = {| body := JObj [("error",
                      JStr "Failed to get video info: 'NoneType' object is not subscriptable")];
       code := 500 |}
  ∧ info_description ex_null_formats = Some "hello"
  ∧ get_video_info (ex_args "https://example.org/v") (ex_info_close_fails ex_twelve_formats)
    = {| body := JObj [("error",
                        JStr "Failed to get video info: [Errno 13] Permission denied: './cookies.txt'")];
         code := 500 |}.
Proof. vm_compute. done. Qed.

(** ** The download endpoint *)


(** *** The writes of the handler *)

Lemma cleanup_files_subseteq (cycles : list CleanupEnv) (d : gmap string Job) :
  cleanup_files cycles d ⊆ d.
Proof.
  revert d. induction cycles as [|cycle cycles IH]; intros d; [done|].
  change (cleanup_files cycles (cycle_downloads (cleanup_cycle cycle d)) ⊆ d).
  etrans; [apply IH|apply cleanup_cycle_subseteq].
Qed.


(** The two closing assignments: the first subscript raises [KeyError]
    when the record is not in the registry, and then nothing is written. *)
Lemma terminal_writes (download_id : string) (s : Status) (w : RegWrite) (f : Job → Job)
    (d : gmap string Job) (ws : list RegWrite) {A : Type} (k : Handler A) :
  (set_status download_id s;; update_record download_id w f;; k)
    {| st_downloads := d; st_writes := ws |}
  = match d !! download_id with
    | Some j =>
        k {| st_downloads := <[download_id := f (with_status s j)]> d;
             st_writes := ws ++ [WStatus download_id s; w] |}
    | None => (Raised (key_error download_id), {| st_downloads := d; st_writes := ws |})
    end.
Proof.
  unfold mbind, handler_bind, set_status, update_record. cbn [st_downloads st_writes].
  destruct (d !! download_id) as [j|]; [|done].
  cbn [st_downloads st_writes]. rewrite lookup_insert_eq.
  by rewrite insert_insert_eq, <- app_assoc.
Qed.

(** The [except] clause. *)
Lemma download_failed_run (download_id m : string) (d : gmap string Job)
    (ws : list RegWrite) :
  download_failed download_id m {| st_downloads := d; st_writes := ws |}
  = match d !! download_id with
    | Some j =>
        (Returned {| body := JObj [("error", JStr ("Download failed: " +:+ m))];
                     code := 500 |},
         {| st_downloads := <[download_id := with_error m (with_status StError j)]> d;
            st_writes := ws ++ [WStatus download_id StError; WError download_id m] |})
    | None => (Raised (key_error download_id), {| st_downloads := d; st_writes := ws |})
    end.
Proof. unfold download_failed, set_error. by rewrite terminal_writes. Qed.

(** The body of the [with] statement, by cases on what the collaborator
    and the directory report. *)
Lemma download_steps_unfold (amid : Reclaim) (url format_type : string)
    (ydl_opts : YdlOptions) (env : DownloadEnv) (d : gmap string Job) (ws : list RegWrite) :
  let download_id := dl_uuid env in
  let d1 := cleanup_files (during_extract_info amid) d in
  let d2 := cleanup_files (during_download amid) d1 in
  download_steps amid url format_type download_id ydl_opts env
    {| st_downloads := d; st_writes := ws |} =
  match dl_extract_info env ydl_opts url with
  | Raised m => (Raised m, {| st_downloads := d1; st_writes := ws |})
  | Returned info =>
      match expected_path (field_get "video" (info_title info)) format_type with
      | Raised m => (Raised m, {| st_downloads := d1; st_writes := ws |})
      | Returned _ =>
          match dl_download env ydl_opts url with
          | Raised m => (Raised m, {| st_downloads := d2; st_writes := ws |})
          | Returned _ =>
              match (entries ← dl_listdir env; find_downloaded_file d2 entries) with
              | Raised m => (Raised m, {| st_downloads := d2; st_writes := ws |})
              | Returned downloaded_file =>
                  match d2 !! download_id with
                  | None =>
                      (Raised (key_error download_id),
                       {| st_downloads := d2; st_writes := ws |})
                  | Some j =>
                      if opt_str_truthy downloaded_file then
                        (Returned (completed_response download_id (default "" downloaded_file)
                                     (default "" (field_get "video" (info_title info)))),
                         {| st_downloads :=
                              <[download_id := with_filename (default "" downloaded_file)
                                                 (with_status StCompleted j)]> d2;
                            st_writes := ws ++
                              [WStatus download_id StCompleted;
                               WFilename download_id (default "" downloaded_file)] |})
                      else
                        (Returned (error_response "Downloaded file not found" 500),
                         {| st_downloads :=
                              <[download_id := with_error "Downloaded file not found"
                                                 (with_status StError j)]> d2;
                            st_writes := ws ++
                              [WStatus download_id StError;
                               WError download_id "Downloaded file not found"] |})
                  end
              end
          end
      end
  end.
Proof.
  intros download_id d1 d2.
  unfold download_steps, mbind at 1 2 3 4 5, handler_bind at 1 2 3 4 5,
    blocked, lift, get_downloads.
  cbn [st_downloads st_writes]. fold d1.
  destruct (dl_extract_info env ydl_opts url) as [info|m]; [|done].
  destruct (expected_path _ format_type) as [path|m]; [|done].
  destruct (dl_download env ydl_opts url) as [[]|m]; [|done].
  cbn [st_downloads st_writes]. fold d2.
  destruct (entries ← dl_listdir env; find_downloaded_file d2 entries)
    as [downloaded_file|m]; [|done].
  destruct (opt_str_truthy downloaded_file).
  - unfold set_filename. rewrite terminal_writes. by destruct (d2 !! download_id).
  - unfold set_error. rewrite terminal_writes. by destruct (d2 !! download_id).
Qed.

(** A registry that the cycles made of the one holding the fresh record
    holds that record or no record of the id. *)
Lemma reclaimed_lookup (env : DownloadEnv) (url : string) (d dk : gmap string Job)
    (j : Job) :
  dk ⊆ <[dl_uuid env := new_job env url]> d →
  dk !! dl_uuid env = Some j → j = new_job env url.
Proof.
  intros Hsub Hj. eapply lookup_weaken in Hj; [|done].
  rewrite lookup_insert_eq in Hj. by injection Hj.
Qed.

(** The view when [url] is given. *)
Lemma download_video_amid_with_url (amid : Reclaim) (args : list (string * string))
    (env : DownloadEnv) (st : Store) (url : string) :
  dict_get "url" args = Some url → url ≠ "" →
  download_video_amid amid args env st
  = try_except
      (download_attempt amid url (default "best" (dict_get "quality" args))
         (default "mp4" (dict_get "format" args)) (dl_uuid env) env)
      (download_failed (dl_uuid env)) st.
Proof.
  intros Hurl Hne. unfold download_video_amid. rewrite Hurl.
  cbn [opt_str_truthy]. unfold str_truthy. by rewrite bool_decide_eq_false_2.
Qed.

Lemma download_video_amid_without_url (amid : Reclaim) (args : list (string * string))
    (env : DownloadEnv) (st : Store) :
  opt_str_truthy (dict_get "url" args) = false →
  download_video_amid amid args env st
  = (Returned (error_response "URL parameter is required" 400), st).
Proof. intros Hurl. unfold download_video_amid. by rewrite Hurl. Qed.

(** The [try] body: the record is stored, then the [with] statement runs. *)
Lemma download_attempt_unfold (amid : Reclaim) (url quality format_type : string)
    (env : DownloadEnv) (st : Store) :
  let ydl_opts := set_quiet (get_yt_dlp_options quality format_type (dl_cookie_exists env)) in
  let st0 := {| st_downloads := <[dl_uuid env := new_job env url]> (st_downloads st);
                st_writes := st_writes st ++ [WCreate (dl_uuid env) (new_job env url)] |} in
  download_attempt amid url quality format_type (dl_uuid env) env st
  = match dl_open env with
    | Returned _ =>
        (closing (dl_close env)
           (download_steps amid url format_type (dl_uuid env) ydl_opts env st0).1,
         (download_steps amid url format_type (dl_uuid env) ydl_opts env st0).2)
    | Raised e => (Raised e, st0)
    end.
Proof.
  intros ydl_opts st0.
  unfold download_attempt, mbind, handler_bind, create_record, with_ydl_handler.
  fold ydl_opts st0. destruct (dl_open env); [|done].
  by destruct (download_steps _ _ _ _ _ _ st0).
Qed.

(** What a /download request does, by cases: nothing without [url];
    otherwise the record is stored, the cycles that run meanwhile leave a
    registry [dr], and either the record is gone from it and the request
    ends in [KeyError], or the record is still there and is closed in one of
    the ways of [Settled]. *)
Lemma download_video_amid_cases (amid : Reclaim) (args : list (string * string))
    (env : DownloadEnv) (st : Store) :
  (opt_str_truthy (dict_get "url" args) = false
   ∧ download_video_amid amid args env st
     = (Returned (error_response "URL parameter is required" 400), st))
  ∨ (∃ (url : string) (dr : gmap string Job),
       let d0 := <[dl_uuid env := new_job env url]> (st_downloads st) in
       let d1 := cleanup_files (during_extract_info amid) d0 in
       let d2 := cleanup_files (during_download amid) d1 in
       let ws0 := st_writes st ++ [WCreate (dl_uuid env) (new_job env url)] in
       dict_get "url" args = Some url ∧ url ≠ ""
       ∧ (dr = d0 ∨ dr = d1 ∨ dr = d2)
       ∧ ((dr !! dl_uuid env = None
           ∧ download_video_amid amid args env st
             = (Raised (key_error (dl_uuid env)),
                {| st_downloads := dr; st_writes := ws0 |}))
          ∨ (dr !! dl_uuid env = Some (new_job env url)
             ∧ ∃ (j : Job) (tail : list RegWrite) (r : Response),
                 Settled env url j tail r
                 ∧ download_video_amid amid args env st
                   = (Returned r,
                      {| st_downloads := <[dl_uuid env := j]> dr;
                         st_writes := ws0 ++ tail |})))).
Proof.
  destruct (dict_get "url" args) as [url|] eqn:Hurl;
    [|left; split; [done|by apply download_video_amid_without_url; rewrite Hurl]].
  destruct (decide (url = "")) as [->|Hne];
    [left; split; [done|by apply download_video_amid_without_url; rewrite Hurl]|].
  right. exists url. cbv zeta.
  set (d0 := <[dl_uuid env := new_job env url]> (st_downloads st)).
  set (d1 := cleanup_files (during_extract_info amid) d0).
  set (d2 := cleanup_files (during_download amid) d1).
  set (ws0 := st_writes st ++ [WCreate (dl_uuid env) (new_job env url)]).
  assert (Hd1 : d1 ⊆ d0) by apply cleanup_files_subseteq.
  assert (Hd2 : d2 ⊆ d0) by (etrans; [apply cleanup_files_subseteq|done]).
  (* an exception caught with the registry [dk] *)
  assert (Hcaught : ∀ (dk : gmap string Job) (m : string),
    dk ⊆ d0 → (dk = d0 ∨ dk = d1 ∨ dk = d2) →
    ∃ dr, Some url = Some url ∧ url ≠ "" ∧ (dr = d0 ∨ dr = d1 ∨ dr = d2)
      ∧ ((dr !! dl_uuid env = None
          ∧ download_failed (dl_uuid env) m {| st_downloads := dk; st_writes := ws0 |}
            = (Raised (key_error (dl_uuid env)), {| st_downloads := dr; st_writes := ws0 |}))
         ∨ (dr !! dl_uuid env = Some (new_job env url)
            ∧ ∃ j tail r, Settled env url j tail r
                ∧ download_failed (dl_uuid env) m {| st_downloads := dk; st_writes := ws0 |}
                  = (Returned r, {| st_downloads := <[dl_uuid env := j]> dr;
                                    st_writes := ws0 ++ tail |})))).
  { intros dk m Hsub Hdk. exists dk. do 3 (split; [done|]).
    rewrite download_failed_run. destruct (dk !! dl_uuid env) as [j|] eqn:Hj; [|by left].
    apply (reclaimed_lookup env url (st_downloads st)) in Hj as Heq; [|done]. subst j.
    right. split; [done|]. eexists _, _, _. split; [apply (settled_failed env url m)|done]. }
  rewrite (download_video_amid_with_url _ _ _ _ url) by done.
  unfold try_except. rewrite download_attempt_unfold. fold d0 ws0.
  destruct (dl_open env) as [[]|e]; [|by apply Hcaught; [|left]].
  rewrite download_steps_unfold. fold d1 d2.
  destruct (dl_extract_info env _ url) as [info|m]; cbn [fst snd closing];
    [|destruct (dl_close env) as [[]|?]; cbn [closing]; by apply Hcaught; [|right; left]].
  destruct (expected_path _ _) as [path|m]; cbn [fst snd closing];
    [|destruct (dl_close env) as [[]|?]; cbn [closing]; by apply Hcaught; [|right; left]].
  destruct (dl_download env _ url) as [[]|m]; cbn [fst snd closing];
    [|destruct (dl_close env) as [[]|?]; cbn [closing]; by apply Hcaught; [|right; right]].
  destruct (_ ← dl_listdir env; _) as [o|m]; cbn [fst snd closing];
    [|destruct (dl_close env) as [[]|?]; cbn [closing]; by apply Hcaught; [|right; right]].
  destruct (d2 !! dl_uuid env) as [j|] eqn:Hj; cbn [fst snd closing];
    [|destruct (dl_close env) as [[]|?]; cbn [closing]; by apply Hcaught; [|right; right]].
  apply (reclaimed_lookup env url (st_downloads st)) in Hj as Heq; [|done]. subst j.
  exists d2. do 2 (split; [done|]). split; [by right; right|].
  right. split; [done|].
  destruct (opt_str_truthy o) eqn:Ho; cbn [fst snd].
  - destruct o as [f|]; [|done]. cbn [default].
    assert (Hf : f ≠ "").
    { intros ->. by cbn in Ho. }
    destruct (dl_close env) as [[]|e]; cbn [closing].
    + eexists _, _, _. split; [by apply (settled_completed env url f)|done].
    + rewrite download_failed_run, lookup_insert_eq, insert_insert_eq, <- app_assoc.
      eexists _, _, _. split; [by apply (settled_completed_failed env url f e)|done].
  - destruct (dl_close env) as [[]|e]; cbn [closing].
    + eexists _, _, _. split; [apply (settled_not_found env url)|done].
    + rewrite download_failed_run, lookup_insert_eq, insert_insert_eq, <- app_assoc.
      eexists _, _, _. split; [apply (settled_not_found_failed env url e)|done].
Qed.
(** *** The scan *)

Lemma py_in_records (filename : string) (records : list Job) :
  py_in (PyStr filename) (PyDict <$> records) = false.
Proof. by induction records. Qed.

(** The membership test of the scan fails for every file name and every
    registry: the list it searches holds records. *)
Lemma filename_not_in_claimed (filename : string) (downloads : gmap string Job) :
  py_in (PyStr filename) (claimed downloads) = false.
Proof. apply py_in_records. Qed.

Lemma find_downloaded_file_registry (d d' : gmap string Job)
    (entries : list (DirEntry * Z)) :
  find_downloaded_file d entries = find_downloaded_file d' entries.
Proof.
  induction entries as [|[e now] rest IH]; [done|]. cbn [find_downloaded_file].
  rewrite !filename_not_in_claimed, IH. done.
Qed.


(** The name the scan returns is that of a regular file created less than
    thirty seconds before it was examined. *)
Lemma find_downloaded_file_recent (d : gmap string Job) (entries : list (DirEntry * Z))
    (filename : string) :
  find_downloaded_file d entries = Returned (Some filename) →
  ∃ e now file_time,
    (e, now) ∈ entries ∧ entry_name e = filename ∧ entry_isfile e = true
    ∧ entry_getctime e = Returned file_time ∧ now - file_time < timedelta 30.
Proof.
  induction entries as [|[e now] rest IH]; [done|]. cbn [find_downloaded_file].
  assert (Hrest : find_downloaded_file d rest = Returned (Some filename) →
    ∃ e0 now0 file_time, (e0, now0) ∈ (e, now) :: rest ∧ entry_name e0 = filename
      ∧ entry_isfile e0 = true ∧ entry_getctime e0 = Returned file_time
      ∧ now0 - file_time < timedelta 30).
  { intros (e0 & now0 & c & Hin & H)%IH. exists e0, now0, c. split; [by right|done]. }
  rewrite filename_not_in_claimed, andb_true_r.
  destruct (entry_isfile e) eqn:Hfile; [|done].
  destruct (entry_getctime e) as [file_time|m] eqn:Hctime; cbn; [|done].
  case_bool_decide; [|done].
  intros [= <-]. exists e, now, file_time. split; [by left|done].
Qed.

(** *** The outcome of a request *)





(** Each source of an exception of the [try] body: the constructor of the
    collaborator, the metadata query, a title that is [None], the
    download, the listing and the scan, the subscript of a record that a
    cycle has removed, and the exit of the [with] statement, whose
    exception replaces the one of the body. *)
Lemma download_attempt_sources (amid : Reclaim) (url quality format_type : string)
    (env : DownloadEnv) (st : Store) (m : string) :
  let ydl_opts := set_quiet (get_yt_dlp_options quality format_type (dl_cookie_exists env)) in
  let d0 := <[dl_uuid env := new_job env url]> (st_downloads st) in
  let d2 := cleanup_files (during_download amid)
              (cleanup_files (during_extract_info amid) d0) in
  dl_open env = Raised m
  ∨ (dl_open env = Returned () ∧ dl_close env = Raised m)
  ∨ (dl_open env = Returned () ∧ dl_close env = Returned ()
     ∧ (dl_extract_info env ydl_opts url = Raised m
        ∨ ∃ info, dl_extract_info env ydl_opts url = Returned info
            ∧ ((info_title info = Null ∧ m = "'NoneType' object is not iterable")
               ∨ (info_title info ≠ Null
                  ∧ (dl_download env ydl_opts url = Raised m
                     ∨ (dl_download env ydl_opts url = Returned ()
                        ∧ (dl_listdir env = Raised m
                           ∨ ∃ entries, dl_listdir env = Returned entries
                               ∧ (find_downloaded_file d2 entries = Raised m
                                  ∨ (∃ o, find_downloaded_file d2 entries = Returned o)
                                    ∧ d2 !! dl_uuid env = None
                                    ∧ m = key_error (dl_uuid env))))))))) →
  ∃ st1, download_attempt amid url quality format_type (dl_uuid env) env st = (Raised m, st1).
Proof.
  intros ydl_opts d0 d2 Hsrc. rewrite download_attempt_unfold. fold ydl_opts d0.
  destruct Hsrc as [->|[[-> Hclose]|(-> & Hclose & Hbody)]]; [by eauto|..];
    rewrite Hclose.
  - destruct (download_steps _ _ _ _ _ _ _) as [[r|e] st1]; cbn; eauto.
  - rewrite download_steps_unfold. fold d2.
    destruct Hbody as [->|(info & -> & Htitle)]; [by eauto|].
    destruct Htitle as [[-> ->]|[Htitle Hdl]]; [by eauto|].
    destruct (info_title info) as [| |title]; [|done|]; cbn [field_get expected_path];
      (destruct Hdl as [->|[-> Hls]]; [by eauto|];
       destruct Hls as [->|(entries & -> & Hscan)]; [by eauto|]; cbn;
       destruct Hscan as [->|([o ->] & -> & ->)]; by eauto).
Qed.

(** *** The registry over a run of the server *)

Lemma run_snoc (ops : list Op) (op : Op) : run (ops ++ [op]) = step (run ops) op.
Proof. unfold run. by rewrite foldl_app. Qed.

(** What one operation does to the store. It writes nothing and leaves a
    part of the registry; or it stores a record, after which the registry
    is a part [dr] of the one holding that record, and then either the
    record is gone from [dr] and nothing more is written, or the record is
    closed in one of the ways of [Settled]. *)
Lemma step_cases (st : Store) (op : Op) :
  (created_ids [op] = []
   ∧ ∃ dr, dr ⊆ st_downloads st
           ∧ step st op = {| st_downloads := dr; st_writes := st_writes st |})
  ∨ (∃ (env : DownloadEnv) (url : string) (dr : gmap string Job),
       created_ids [op] = [dl_uuid env]
       ∧ dr ⊆ <[dl_uuid env := new_job env url]> (st_downloads st)
       ∧ ((dr !! dl_uuid env = None
           ∧ step st op
             = {| st_downloads := dr;
                  st_writes := st_writes st ++ [WCreate (dl_uuid env) (new_job env url)] |})
          ∨ (∃ (j : Job) (tail : list RegWrite) (r : Response),
               Settled env url j tail r
               ∧ step st op
                 = {| st_downloads := <[dl_uuid env := j]> dr;
                      st_writes := st_writes st
                                   ++ WCreate (dl_uuid env) (new_job env url) :: tail |}))).
Proof.
  assert (Hdownload : ∀ amid args env,
    (created_ids [OpDownloadAmid amid args env] = []
     ∧ ∃ dr, dr ⊆ st_downloads st
             ∧ (download_video_amid amid args env st).2
               = {| st_downloads := dr; st_writes := st_writes st |})
    ∨ (∃ (env' : DownloadEnv) (url : string) (dr : gmap string Job),
         created_ids [OpDownloadAmid amid args env] = [dl_uuid env']
         ∧ dr ⊆ <[dl_uuid env' := new_job env' url]> (st_downloads st)
         ∧ ((dr !! dl_uuid env' = None
             ∧ (download_video_amid amid args env st).2
               = {| st_downloads := dr;
                    st_writes := st_writes st ++ [WCreate (dl_uuid env') (new_job env' url)] |})
            ∨ (∃ (j : Job) (tail : list RegWrite) (r : Response),
                 Settled env' url j tail r
                 ∧ (download_video_amid amid args env st).2
                   = {| st_downloads := <[dl_uuid env' := j]> dr;
                        st_writes := st_writes st
                                     ++ WCreate (dl_uuid env') (new_job env' url) :: tail |})))).
  { intros amid args env. unfold created_ids. cbn [omap list_omap].
    destruct (download_video_amid_cases amid args env st)
      as [[Hno ->]|(url & dr & Hurl & Hne & Hdr & Hcases)].
    - left. rewrite Hno. split; [done|]. exists (st_downloads st). split; [done|].
      by destruct st.
    - right. exists env, url, dr. cbv zeta in Hdr, Hcases. rewrite Hurl.
      cbn [opt_str_truthy]. unfold str_truthy. rewrite bool_decide_eq_false_2 by done.
      split; [done|]. split.
      { destruct Hdr as [->|[->| ->]]; [done|apply cleanup_files_subseteq|].
        etrans; apply cleanup_files_subseteq. }
      destruct Hcases as [[Hgone ->]|(_ & j & tail & r & Hsettled & ->)]; [by left|].
      right. exists j, tail, r. split; [done|]. cbn [snd]. by rewrite <- app_assoc. }
  destruct op as [args env|amid args env|env]; cbn [step].
  - apply (Hdownload no_reclaim args env).
  - apply Hdownload.
  - left. split; [done|]. eexists. split; [apply cleanup_cycle_subseteq|done].
Qed.

(** A property of the records that a fresh record has and that every
    settled record has holds of all records of a registry the server
    reaches. *)
Lemma run_invariant (P : Job → Prop) :
  (∀ env url, P (new_job env url)) →
  (∀ env url j tail r, Settled env url j tail r → P j) →
  ∀ (ops : list Op) (download_id : string) (j : Job),
    st_downloads (run ops) !! download_id = Some j → P j.
Proof.
  intros Hnew Hsettled ops.
  induction ops as [|op ops IH] using rev_ind; intros download_id j.
  - change (st_downloads (run [])) with (∅ : gmap string Job). by rewrite lookup_empty.
  - rewrite run_snoc.
    assert (Hpart : ∀ env url (dr : gmap string Job),
      dr ⊆ <[dl_uuid env := new_job env url]> (st_downloads (run ops)) →
      dr !! download_id = Some j → P j).
    { intros env url dr Hsub Hj. eapply lookup_weaken in Hj; [|done].
      rewrite lookup_insert in Hj. case_decide; [|by eapply IH].
      injection Hj as <-. apply Hnew. }
    destruct (step_cases (run ops) op)
      as [(_ & dr & Hsub & ->)|(env & url & dr & _ & Hsub & Hcases)]; cbn [st_downloads].
    + intros Hj. eapply IH. by eapply lookup_weaken.
    + destruct Hcases as [[_ ->]|(j' & tail & r & Hj' & ->)]; cbn [st_downloads].
      * by apply (Hpart env url).
      * rewrite lookup_insert. case_decide; [|by apply (Hpart env url)].
        intros [= <-]. by eapply Hsettled.
Qed.

Lemma new_job_fields (env : DownloadEnv) (url : string) :
  fields_match_status (new_job env url).
Proof.
  unfold fields_match_status. cbn. split; [done|]. split.
  - split; [by intros ?%is_Some_None|done].
  - by intros ?%is_Some_None.
Qed.

Lemma settled_fields (env : DownloadEnv) (url : string) (j : Job) (tail : list RegWrite)
    (r : Response) :
  Settled env url j tail r → fields_match_status j.
Proof.
  assert (Hne : ∀ f : string, f ≠ "" → str_truthy f = true).
  { intros f Hf. unfold str_truthy. by rewrite bool_decide_eq_false_2. }
  destruct 1; unfold fields_match_status; cbn.
  - split; [by auto|]. split; [split; [by intros ?%is_Some_None|done]|by auto].
  - split; [done|]. split; [done|]. by intros ?%is_Some_None.
  - split; [done|]. split; [done|]. by intros ?%is_Some_None.
  - split; [done|]. split; [done|by auto].
  - split; [done|]. split; [done|]. by intros ?%is_Some_None.
Qed.

(** C4, as amended. In every registry the server reaches, a record in
    status completed has a non-empty file name and no error detail; a
    record has an error detail, which may be the empty string, exactly when
    its status is error; and a record that has a file name has a non-empty
    one and is in status completed or, when the request failed after the
    file was resolved, in status error, then with both fields set. A
    record in status downloading has neither. *)
Theorem registry_fields_match_status (ops : list Op) (download_id : string) (j : Job) :
  st_downloads (run ops) !! download_id = Some j → fields_match_status j.
Proof.
  apply (run_invariant fields_match_status); [apply new_job_fields|apply settled_fields].
Qed.

Lemma registry_fields_match_status_witness :
  fields_match_status
    {| job_status := StError; job_timestamp := timedelta 0;
       job_url := "https://example.org/a"; job_filename := Some "a.mp4";
       job_error := Some "[Errno 13] Permission denied: './cookies.txt'" |}.
Proof.
  apply (registry_fields_match_status
           [OpDownload (ex_args "https://example.org/a") ex_close_fails] "id-5").
  vm_compute. reflexivity.
Defined.

(** C4, counterexample to the property as the specification words it.
    An exception whose message is empty leaves a record in status error
    whose error detail is the empty string. *)
Lemma empty_error_detail_recorded :
  ¬ (∀ (ops : list Op) (download_id : string) (j : Job),
       st_downloads (run ops) !! download_id = Some j → fields_match_status_nonempty j).
Proof.
  intros Hclaim.
  destruct (Hclaim [OpDownload (ex_args "https://example.org/v") (ex_raising "")] "id-3"
              (error_job (ex_raising "") "https://example.org/v" ""))
    as (_ & Herror & _); [by vm_compute|].
  assert (Hset : opt_str_truthy (Some "") = true) by (by apply Herror).
  discriminate Hset.
Qed.

(** A request whose file was resolved and whose collaborator then fails
    to close leaves a record in status error with both the file name and
    the error detail. *)
Lemma completed_then_failed_record :
  st_downloads (run [OpDownload (ex_args "https://example.org/a") ex_close_fails]) !! "id-5"
  = Some {| job_status := StError; job_timestamp := timedelta 0;
            job_url := "https://example.org/a"; job_filename := Some "a.mp4";
            job_error := Some "[Errno 13] Permission denied: './cookies.txt'" |}.
Proof. vm_compute. reflexivity. Qed.

(** *** The history of a status *)

Lemma status_history_app (download_id : string) (ws ws' : list RegWrite) :
  status_history download_id (ws ++ ws')
  = status_history download_id ws ++ status_history download_id ws'.
Proof. apply omap_app. Qed.

(** The statuses a settled request writes after the creation. *)
Lemma settled_history (env : DownloadEnv) (url : string) (j : Job) (tail : list RegWrite)
    (r : Response) :
  Settled env url j tail r →
  status_history (dl_uuid env) tail
    ∈ [ [StCompleted]; [StError]; [StCompleted; StError]; [StError; StError] ]
  ∧ last (status_history (dl_uuid env) tail) = Some (job_status j)
  ∧ ∀ i, i ≠ dl_uuid env → status_history i tail = [].
Proof.
  destruct 1; cbn; rewrite !decide_True by done;
    (split; [|split; [done|intros i Hi; by rewrite !decide_False by done]]).
  - by left.
  - right; by left.
  - right; by left.
  - right; right; by left.
  - right; right; right; by left.
Qed.

(** One operation adds nothing to the history of an id, or adds the
    initial status followed by at most two terminal statuses, the second
    of which is error, the latter only to the id the operation creates. *)
Lemma status_history_step (st : Store) (op : Op) (download_id : string) :
  ((download_id ∉ created_ids [op])
   ∧ status_history download_id (st_writes (step st op))
     = status_history download_id (st_writes st))
  ∨ (download_id ∈ created_ids [op]
     ∧ ∃ after,
         after ∈ [ []; [StCompleted]; [StError]; [StCompleted; StError];
                   [StError; StError] ]
         ∧ status_history download_id (st_writes (step st op))
           = status_history download_id (st_writes st) ++ StDownloading :: after).
Proof.
  destruct (step_cases st op)
    as [(-> & dr & _ & ->)|(env & url & dr & -> & _ & Hcases)].
  { left. split; [apply not_elem_of_nil|done]. }
  destruct (decide (dl_uuid env = download_id)) as [<-|Hne].
  - right. split; [by left|].
    destruct Hcases as [[_ ->]|(j & tail & r & Hsettled & ->)];
      cbn [st_writes]; rewrite status_history_app.
    + exists []. split; [by left|]. cbn. by rewrite decide_True.
    + exists (status_history (dl_uuid env) tail).
      split; [right; by apply (settled_history env url j tail r)|].
      f_equal. change (WCreate (dl_uuid env) (new_job env url) :: tail)
        with ([WCreate (dl_uuid env) (new_job env url)] ++ tail).
      rewrite status_history_app. cbn. by rewrite decide_True.
  - left. split; [by intros ->%list_elem_of_singleton|].
    destruct Hcases as [[_ ->]|(j & tail & r & Hsettled & ->)];
      cbn [st_writes]; rewrite status_history_app.
    + cbn. by rewrite decide_False, app_nil_r.
    + change (WCreate (dl_uuid env) (new_job env url) :: tail)
        with ([WCreate (dl_uuid env) (new_job env url)] ++ tail).
      rewrite status_history_app.
      destruct (settled_history env url j tail r Hsettled) as (_ & _ & ->); [|done].
      cbn. by rewrite decide_False, app_nil_r.
Qed.

Lemma status_history_not_created (ops : list Op) (download_id : string) :
  download_id ∉ created_ids ops →
  status_history download_id (st_writes (run ops)) = [].
Proof.
  induction ops as [|op ops IH] using rev_ind; [done|].
  unfold created_ids. rewrite omap_app, not_elem_of_app. intros [Hops Hop].
  rewrite run_snoc.
  destruct (status_history_step (run ops) op download_id) as [[_ ->]|[Hin _]];
    [by apply IH|done].
Qed.

(** The status a record holds in the registry is the last one written
    for its id: the history above is the history of the record. *)
Lemma registry_status_last_written (ops : list Op) (download_id : string) (j : Job) :
  st_downloads (run ops) !! download_id = Some j →
  last (status_history download_id (st_writes (run ops))) = Some (job_status j).
Proof.
  revert j. induction ops as [|op ops IH] using rev_ind; intros j.
  - change (st_downloads (run [])) with (∅ : gmap string Job). by rewrite lookup_empty.
  - rewrite run_snoc.
    assert (Hpart : ∀ env url (dr : gmap string Job) (ws : list RegWrite),
      dr ⊆ <[dl_uuid env := new_job env url]> (st_downloads (run ops)) →
      (dl_uuid env ≠ download_id → status_history download_id ws = []) →
      (dl_uuid env = download_id → dr !! download_id = Some j →
         last (StDownloading :: status_history download_id ws) = Some (job_status j)) →
      dr !! download_id = Some j →
      last (status_history download_id
              (st_writes (run ops) ++ WCreate (dl_uuid env) (new_job env url) :: ws))
      = Some (job_status j)).
    { intros env url dr ws Hsub Hother Hown Hj.
      change (WCreate (dl_uuid env) (new_job env url) :: ws)
        with ([WCreate (dl_uuid env) (new_job env url)] ++ ws).
      rewrite !status_history_app.
      destruct (decide (dl_uuid env = download_id)) as [Hid|Hid].
      - cbn. rewrite decide_True by done. rewrite last_app. cbn [app].
        by rewrite (Hown Hid Hj).
      - cbn. rewrite decide_False, (Hother Hid), !app_nil_r by done.
        apply IH. eapply lookup_weaken in Hj; [|done].
        by rewrite lookup_insert_ne in Hj. }
    destruct (step_cases (run ops) op)
      as [(_ & dr & Hsub & ->)|(env & url & dr & _ & Hsub & Hcases)];
      cbn [st_downloads st_writes].
    + intros Hj. apply IH. by eapply lookup_weaken.
    + destruct Hcases as [[Hgone ->]|(j' & tail & r & Hj' & ->)];
        cbn [st_downloads st_writes].
      * apply (Hpart env url dr []); [done|done|].
        intros <- Hj. by rewrite Hgone in Hj.
      * destruct (settled_history env url j' tail r Hj') as (_ & Hlast & Hother).
        rewrite lookup_insert. case_decide as Hid.
        -- intros [= <-]. subst download_id.
           change (WCreate (dl_uuid env) (new_job env url) :: tail)
             with ([WCreate (dl_uuid env) (new_job env url)] ++ tail).
           rewrite !status_history_app, !last_app, Hlast. done.
        -- intros Hj. apply (Hpart env url dr tail); [done|by auto|done|done].
Qed.

(** C3, as amended. Over a run of the server in which the ids drawn for
    the created records are pairwise distinct, the statuses written for an
    id are none at all, or start with downloading, written once, at the
    creation; what follows is nothing (the request ended without closing
    the record), or one of completed and error, or one of these followed by
    error, which is written when the exit of the [with] statement raises
    after the record was closed. The status never returns to downloading
    and never leaves error, but it can leave completed for error. *)
Theorem status_history_shape (ops : list Op) (download_id : string) :
  NoDup (created_ids ops) →
  status_history download_id (st_writes (run ops))
    ∈ [ []; [StDownloading];
        [StDownloading; StCompleted]; [StDownloading; StError];
        [StDownloading; StCompleted; StError]; [StDownloading; StError; StError] ].
Proof.
  induction ops as [|op ops IH] using rev_ind; [intros _; by left|].
  unfold created_ids. rewrite omap_app. intros (Hops & Hdisj & _)%NoDup_app.
  rewrite run_snoc.
  destruct (status_history_step (run ops) op download_id)
    as [[_ ->]|[Hin (after & Hafter & ->)]]; [by apply IH|].
  rewrite status_history_not_created; [|intros Hin'; by apply (Hdisj download_id)].
  cbn [app]. right.
  repeat (apply elem_of_cons in Hafter as [->|Hafter]; [by repeat constructor|]).
  by apply elem_of_nil in Hafter.
Qed.

Lemma status_history_shape_witness :
  status_history "id-5"
    (st_writes (run [OpDownload (ex_args "https://example.org/a") ex_first;
                     OpCleanup ex_cycle;
                     OpDownloadAmid ex_two_cycles (ex_args "https://example.org/a")
                       ex_close_fails]))
    ∈ [ []; [StDownloading];
        [StDownloading; StCompleted]; [StDownloading; StError];
        [StDownloading; StCompleted; StError]; [StDownloading; StError; StError] ].
Proof.
  apply (status_history_shape
           [OpDownload (ex_args "https://example.org/a") ex_first;
            OpCleanup ex_cycle;
            OpDownloadAmid ex_two_cycles (ex_args "https://example.org/a") ex_close_fails]
           "id-5").
  apply (bool_decide_unpack _). vm_compute. exact I.
Defined.

(** C3, the code at a failing input. The file of a download is resolved
    and its record completed; the exit of the [with] statement then raises,
    and the [except] clause writes status error on the completed record:
    a second transition, out of a terminal status. *)
Lemma completed_record_turns_error :
  status_history "id-5"
    (st_writes (run [OpDownload (ex_args "https://example.org/a") ex_close_fails]))
  = [StDownloading; StCompleted; StError]
  ∧ job_status <$> st_downloads
                     (run [OpDownload (ex_args "https://example.org/a") ex_close_fails])
                   !! "id-5"
    = Some StError.
Proof. vm_compute. done. Qed.




(** C1, the code at a failing input. Two downloads in a row: the first
    is given [a.mp4]; the scan of the second, ten seconds later, meets
    [a.mp4] first, finds it recent, and gives the same file to the second
    job although the first record claims it, while the file the second
    download wrote, [b.mp4], is given to no job. *)
Theorem claimed_file_selected_again :
  let st := run [OpDownload (ex_args "https://example.org/a") ex_first;
                 OpDownload (ex_args "https://example.org/b") ex_second] in
  job_filename <$> st_downloads st !! "id-1" = Some (Some "a.mp4")
  ∧ job_filename <$> st_downloads st !! "id-2" = Some (Some "a.mp4")
  ∧ job_status <$> st_downloads st !! "id-2" = Some StCompleted.
Proof. vm_compute. done. Qed.

(** C7. A /download request without a [url] parameter is answered with
    400 and leaves the store as it was: no record is inserted and nothing
    is written to the registry. *)
Theorem download_without_url (args : list (string * string)) (env : DownloadEnv)
    (st : Store) :
  dict_get "url" args = None →
  download_video args env st
  = (Returned (error_response "URL parameter is required" 400), st).
Proof. intros Hurl. unfold download_video, download_video_amid. by rewrite Hurl. Qed.

Lemma download_without_url_witness :
  download_video [("quality", "best")] ex_first init
  = (Returned (error_response "URL parameter is required" 400), init).
Proof. apply (download_without_url [("quality", "best")] ex_first init). reflexivity. Defined.

(** An empty [url] parameter is treated in the same way. *)
Lemma download_with_empty_url (args : list (string * string)) (env : DownloadEnv)
    (st : Store) :
  dict_get "url" args = Some "" →
  download_video args env st
  = (Returned (error_response "URL parameter is required" 400), st).
Proof. intros Hurl. unfold download_video, download_video_amid. by rewrite Hurl. Qed.

(** ** Downloading and serving *)

(** The answer and the store of a /download request during which no
    reclamation cycle runs, by cases: the record it stores is there when
    it closes it. *)
Lemma download_video_cases (args : list (string * string)) (env : DownloadEnv)
    (st : Store) :
  (opt_str_truthy (dict_get "url" args) = false
   ∧ download_video args env st
     = (Returned (error_response "URL parameter is required" 400), st))
  ∨ (∃ (url : string) (j : Job) (tail : list RegWrite) (r : Response),
       dict_get "url" args = Some url ∧ url ≠ ""
       ∧ Settled env url j tail r
       ∧ download_video args env st
         = (Returned r,
            {| st_downloads := <[dl_uuid env := j]> (st_downloads st);
               st_writes := st_writes st
                            ++ WCreate (dl_uuid env) (new_job env url) :: tail |})).
Proof.
  unfold download_video.
  destruct (download_video_amid_cases no_reclaim args env st)
    as [?|(url & dr & Hurl & Hne & Hdr & Hcases)]; [by left|].
  right. exists url. cbv zeta in Hdr, Hcases.
  assert (Heq : dr = <[dl_uuid env := new_job env url]> (st_downloads st))
    by (by destruct Hdr as [->|[->| ->]]).
  subst dr. rewrite lookup_insert_eq in Hcases.
  destruct Hcases as [[? _]|(_ & j & tail & r & Hsettled & ->)]; [done|].
  exists j, tail, r. by rewrite insert_insert_eq, <- app_assoc.
Qed.




Lemma settled_code (env : DownloadEnv) (url : string) (j : Job) (tail : list RegWrite)
    (r : Response) :
  Settled env url j tail r →
  (code r = 200
   ∧ ∃ downloaded_file title,
       downloaded_file ≠ "" ∧ j = completed_job env url downloaded_file
       ∧ r = completed_response (dl_uuid env) downloaded_file title)
  ∨ code r = 500.
Proof. destruct 1; [left|by right..]. split; [done|]. by eauto. Qed.

(** X11. A /download request during which no reclamation cycle runs
    always returns a response, with code 200, 400 or 500: no exception of
    the collaborator or of the directory scan leaves the handler. It writes
    to no record but the one of its own id. *)
Theorem download_video_always_answers (args : list (string * string))
    (env : DownloadEnv) (st : Store) :
  ∃ r, (download_video args env st).1 = Returned r
       ∧ (code r = 200 ∨ code r = 400 ∨ code r = 500)
       ∧ delete (dl_uuid env) (st_downloads (download_video args env st).2)
         = delete (dl_uuid env) (st_downloads st).
Proof.
  destruct (download_video_cases args env st)
    as [[_ ->]|(url & j & tail & r & _ & _ & Hsettled & ->)];
    eexists; (split; [reflexivity|]); cbn [fst snd st_downloads code error_response].
  - split; [by right; left|done].
  - split; [|apply delete_insert_eq].
    destruct (settled_code _ _ _ _ _ Hsettled) as [[-> _]| ->]; [by left|by right; right].
Qed.

(** X12. A request answered with 200 can be fetched: the response names
    the file and the link [/file/<id>], and /file for that id sends the
    named file from the download directory when it is on disk, and answers
    404 "File not found" when it is not. *)
Theorem completed_download_is_served (args : list (string * string)) (env : DownloadEnv)
    (st : Store) (r : Response) (path_exists : string → bool) :
  (download_video args env st).1 = Returned r →
  code r = 200 →
  ∃ filename,
    json_field "filename" (body r) = Some (JStr filename)
    ∧ json_field "download_url" (body r) = Some (JStr ("/file/" +:+ dl_uuid env))
    ∧ get_file (dl_uuid env) (st_downloads (download_video args env st).2) path_exists
      = Returned (if path_exists (os_path_join DOWNLOAD_DIR filename)
                  then ReplyFile (os_path_join DOWNLOAD_DIR filename) filename
                  else ReplyJson (error_response "File not found" 404)).
Proof.
  destruct (download_video_cases args env st)
    as [[_ ->]|(url & j & tail & r' & _ & _ & Hsettled & ->)];
    cbn [fst snd]; intros [= <-]; [done|].
  intros Hcode.
  destruct (settled_code _ _ _ _ _ Hsettled) as [(_ & f & title & Hf & -> & ->)|Hcode'];
    [|by rewrite Hcode in Hcode'].
  exists f. split; [done|]. split; [done|].
  unfold get_file. cbn [st_downloads]. rewrite lookup_insert_eq. cbn.
  by destruct (path_exists _).
Qed.

Lemma completed_download_is_served_witness :
  ∃ filename,
    json_field "filename" (body (completed_response "id-1" "a.mp4" "a")) = Some (JStr filename)
    ∧ json_field "download_url" (body (completed_response "id-1" "a.mp4" "a"))
      = Some (JStr ("/file/" +:+ dl_uuid ex_first))
    ∧ get_file (dl_uuid ex_first)
        (st_downloads (download_video (ex_args "https://example.org/a") ex_first init).2)
        (λ _, true)
      = Returned (if (λ _ : string, true) (os_path_join DOWNLOAD_DIR filename)
                  then ReplyFile (os_path_join DOWNLOAD_DIR filename) filename
                  else ReplyJson (error_response "File not found" 404)).
Proof.
  apply (completed_download_is_served (ex_args "https://example.org/a") ex_first init
           (completed_response "id-1" "a.mp4" "a") (λ _, true)).
  - vm_compute. reflexivity.
  - reflexivity.
Defined.

(** X13. /file sends a file exactly when the id is in the registry with
    status completed and its file is on disk; what it sends is the file of
    that name in the download directory, under that name. *)
Theorem get_file_serves_iff (download_id : string) (downloads : gmap string Job)
    (path_exists : string → bool) (filepath download_name : string) :
  get_file download_id downloads path_exists = Returned (ReplyFile filepath download_name)
  ↔ ∃ j, downloads !! download_id = Some j
         ∧ job_status j = StCompleted
         ∧ job_filename j = Some download_name
         ∧ filepath = os_path_join DOWNLOAD_DIR download_name
         ∧ path_exists filepath = true.
Proof.
  unfold get_file. split.
  - destruct (downloads !! download_id) as [j|]; [|done].
    case_bool_decide as Hs; cbn [negb]; [|done].
    destruct (job_filename j) as [f|] eqn:Hf; [|done].
    destruct (path_exists _) eqn:Hex; cbn [negb]; [|done].
    intros [= <- <-]. by exists j.
  - intros (j & -> & Hs & -> & -> & Hex).
    by rewrite bool_decide_eq_true_2, Hex.
Qed.

(** A completed record of a registry the server reaches has a file name. *)
Lemma completed_record_has_filename (ops : list Op) (download_id : string) (j : Job) :
  st_downloads (run ops) !! download_id = Some j →
  job_status j = StCompleted → is_Some (job_filename j).
Proof.
  apply (run_invariant (λ j, job_status j = StCompleted → is_Some (job_filename j)));
    [done|].
  intros env url j' tail r. by destruct 1.
Qed.

(** X14. On every registry the server reaches, /file returns a response
    for every id: the [filename] of a completed record is never [None], so
    [os.path.join] does not raise. *)
Theorem get_file_answers_on_reachable (ops : list Op) (download_id : string)
    (path_exists : string → bool) :
  ∃ reply, get_file download_id (st_downloads (run ops)) path_exists = Returned reply.
Proof.
  unfold get_file.
  destruct (st_downloads (run ops) !! download_id) as [j|] eqn:Hj; [|by eexists].
  case_bool_decide as Hs; cbn [negb]; [|by eexists].
  destruct (completed_record_has_filename ops download_id j Hj Hs) as [f ->].
  destruct (path_exists _); by eexists.
Qed.

(** The same handler raises on a registry that breaks the invariant. *)
Lemma get_file_raises_without_filename :
  get_file "id-0" {[ "id-0" := with_status StCompleted ex_old_job ]} (λ _, true)
  = Raised "expected str, bytes or os.PathLike object, not NoneType".
Proof. by vm_compute. Qed.

(** X15. The response of /download does not depend on the registry it
    runs on: the records of other jobs, and the files they claim, have no
    influence on the file chosen or on the answer. *)
Theorem download_video_ignores_registry (args : list (string * string))
    (env : DownloadEnv) (st st' : Store) :
  (download_video args env st).1 = (download_video args env st').1.
Proof.
  destruct (dict_get "url" args) as [url|] eqn:Hurl;
    [|unfold download_video, download_video_amid; by rewrite Hurl].
  destruct (decide (url = "")) as [->|Hne]; [by rewrite !download_with_empty_url|].
  unfold download_video. rewrite !(download_video_amid_with_url _ _ _ _ url) by done.
  unfold try_except. rewrite !download_attempt_unfold.
  destruct (dl_open env) as [[]|e];
    [|by rewrite !download_failed_run, !lookup_insert_eq].
  rewrite !download_steps_unfold.
  cbn [no_reclaim during_extract_info during_download cleanup_files foldl].
  assert (Hscan : ∀ d d' : gmap string Job,
    (entries ← dl_listdir env; find_downloaded_file d entries)
    = (entries ← dl_listdir env; find_downloaded_file d' entries)).
  { intros d d'. destruct (dl_listdir env) as [entries|m]; [|done].
    apply find_downloaded_file_registry. }
  rewrite (Hscan (<[dl_uuid env := new_job env url]> (st_downloads st)) ∅),
    (Hscan (<[dl_uuid env := new_job env url]> (st_downloads st')) ∅).
  rewrite !lookup_insert_eq. unfold closing.
  destruct (dl_close env) as [[]|e];
    (destruct (dl_extract_info env _ url) as [info|m]; cbn [fst snd];
       [|by rewrite !download_failed_run, !lookup_insert_eq]);
    (destruct (expected_path _ _) as [path|m]; cbn [fst snd];
       [|by rewrite !download_failed_run, !lookup_insert_eq]);
    (destruct (dl_download env _ url) as [[]|m]; cbn [fst snd];
       [|by rewrite !download_failed_run, !lookup_insert_eq]);
    (destruct (_ ← dl_listdir env; _) as [o|m]; cbn [fst snd];
       [|by rewrite !download_failed_run, !lookup_insert_eq]);
    destruct (opt_str_truthy o); cbn [fst snd];
    by rewrite ?download_failed_run, ?lookup_insert_eq.
Qed.

Lemma creations_app (download_id : string) (ws ws' : list RegWrite) :
  creations download_id (ws ++ ws') = creations download_id ws ++ creations download_id ws'.
Proof. apply omap_app. Qed.

Lemma settled_keeps (env : DownloadEnv) (url : string) (j : Job) (tail : list RegWrite)
    (r : Response) :
  Settled env url j tail r →
  job_url j = url ∧ job_timestamp j = dl_now env ∧ ∀ i, creations i tail = [].
Proof. by destruct 1. Qed.

(** X16. A record of a registry the server reaches has the url and the
    timestamp it was stored with, and it was stored in status downloading
    with neither file name nor error detail: no later write changes the
    url or the timestamp. *)
Theorem record_keeps_url_and_timestamp (ops : list Op) (download_id : string) (j : Job) :
  st_downloads (run ops) !! download_id = Some j →
  ∃ j0, last (creations download_id (st_writes (run ops))) = Some j0
        ∧ job_status j0 = StDownloading
        ∧ job_filename j0 = None ∧ job_error j0 = None
        ∧ job_url j = job_url j0 ∧ job_timestamp j = job_timestamp j0.
Proof.
  revert j. induction ops as [|op ops IH] using rev_ind; intros j.
  - change (st_downloads (run [])) with (∅ : gmap string Job). by rewrite lookup_empty.
  - rewrite run_snoc.
    assert (Hstored : ∀ env url (dr : gmap string Job) (jf : Job) (tail : list RegWrite),
      dr ⊆ <[dl_uuid env := new_job env url]> (st_downloads (run ops)) →
      (∀ i, creations i tail = []) →
      job_url jf = url → job_timestamp jf = dl_now env →
      (dl_uuid env = download_id → jf = j) →
      (dl_uuid env ≠ download_id → dr !! download_id = Some j) →
      ∃ j0, last (creations download_id
                    (st_writes (run ops) ++ WCreate (dl_uuid env) (new_job env url) :: tail))
            = Some j0
            ∧ job_status j0 = StDownloading ∧ job_filename j0 = None ∧ job_error j0 = None
            ∧ job_url j = job_url j0 ∧ job_timestamp j = job_timestamp j0).
    { intros env url dr jf tail Hsub Htail Hu Ht Hown Hother.
      change (WCreate (dl_uuid env) (new_job env url) :: tail)
        with ([WCreate (dl_uuid env) (new_job env url)] ++ tail).
      rewrite !creations_app, Htail, app_nil_r.
      destruct (decide (dl_uuid env = download_id)) as [Hid|Hid].
      - rewrite <- (Hown Hid). exists (new_job env url). cbn.
        rewrite decide_True by done. by rewrite last_snoc.
      - cbn. rewrite decide_False, app_nil_r by done. apply IH.
        specialize (Hother Hid). eapply lookup_weaken in Hother; [|done].
        by rewrite lookup_insert_ne in Hother. }
    destruct (step_cases (run ops) op)
      as [(_ & dr & Hsub & ->)|(env & url & dr & _ & Hsub & Hcases)];
      cbn [st_downloads st_writes].
    + intros Hj. apply IH. by eapply lookup_weaken.
    + destruct Hcases as [[Hgone ->]|(j' & tail & r & Hj' & ->)];
        cbn [st_downloads st_writes]; intros Hj.
      * apply (Hstored env url dr (new_job env url) []); try done.
        intros <-. by rewrite Hgone in Hj.
      * destruct (settled_keeps env url j' tail r Hj') as (Hu & Ht & Htail).
        apply (Hstored env url dr j' tail); try done.
        -- intros <-. rewrite lookup_insert_eq in Hj. by injection Hj.
        -- intros Hid. by rewrite lookup_insert_ne in Hj.
Qed.

Lemma record_keeps_url_and_timestamp_witness :
  ∃ j0, last (creations "id-1"
                (st_writes (run [OpDownload (ex_args "https://example.org/a") ex_first;
                                 OpCleanup ex_cycle_vanished]))) = Some j0
        ∧ job_status j0 = StDownloading
        ∧ job_filename j0 = None ∧ job_error j0 = None
        ∧ job_url (completed_job ex_first "https://example.org/a" "a.mp4") = job_url j0
        ∧ job_timestamp (completed_job ex_first "https://example.org/a" "a.mp4")
          = job_timestamp j0.
Proof.
  apply (record_keeps_url_and_timestamp
           [OpDownload (ex_args "https://example.org/a") ex_first;
            OpCleanup ex_cycle_vanished] "id-1").
  vm_compute. reflexivity.
Defined.

(** * Further properties *)

(** ** Cookies *)

Lemma lstrip_ws_all_space (s : string) :
  Forall (λ c, py_isspace c = true) (list_ascii_of_string (lstrip_ws s))
  ↔ Forall (λ c, py_isspace c = true) (list_ascii_of_string s).
Proof.
  induction s as [|c s IH]; [done|]. cbn [lstrip_ws].
  destruct (py_isspace c) eqn:Hc; [|done].
  rewrite IH. cbn [list_ascii_of_string]. rewrite Forall_cons. by intuition.
Qed.

Lemma rstrip_ws_empty (s : string) :
  rstrip_ws s = "" ↔ Forall (λ c, py_isspace c = true) (list_ascii_of_string s).
Proof.
  induction s as [|c s IH]; [by split; [constructor|]|].
  cbn [rstrip_ws list_ascii_of_string]. rewrite Forall_cons, <- IH.
  destruct (py_isspace c); cbn [andb].
  - unfold str_truthy. case_bool_decide as Hr; cbn [negb].
    + split; [done|]. by intros _.
    + split; [done|]. by intros [_ ?].
  - split; [done|]. by intros [? _].
Qed.

Lemma not_all_true_exists_false {A : Type} (f : A → bool) (l : list A) :
  ¬ Forall (λ x, f x = true) l ↔ Exists (λ x, f x = false) l.
Proof.
  induction l as [|x l IH].
  - split; [intros H; by destruct H|by intros ?%Exists_nil].
  - rewrite Forall_cons, Exists_cons, <- IH. destruct (f x); split.
    + intros H. right. intros Hl. by apply H.
    + intros [?|Hl] [_ ?]; [done|by apply Hl].
    + intros _. by left.
    + by intros _ [? _].
Qed.

(** [s.strip()] is empty exactly when [s] consists of whitespace. *)
Lemma strip_truthy (s : string) :
  str_truthy (strip s) = true
  ↔ Exists (λ c, py_isspace c = false) (list_ascii_of_string s).
Proof.
  unfold str_truthy, strip. rewrite negb_true_iff, bool_decide_eq_false.
  by rewrite rstrip_ws_empty, lstrip_ws_all_space, not_all_true_exists_false.
Qed.

(** X1. [initialize_cookies] returns [True] exactly when the cookie file
    exists, can be read, and holds at least one character that is not
    whitespace: a missing, unreadable, empty or blank file gives [False]. *)
Theorem initialize_cookies_true_iff (path_exists : bool) (read : outcome string) :
  initialize_cookies path_exists read = true
  ↔ path_exists = true
    ∧ ∃ content, read = Returned content
                 ∧ Exists (λ c, py_isspace c = false) (list_ascii_of_string content).
Proof.
  unfold initialize_cookies. destruct path_exists; [|by split; [|intros [? _]]].
  destruct read as [content|m].
  - rewrite strip_truthy. split.
    + intros Hc. split; [done|]. by exists content.
    + by intros [_ (content' & [= <-] & Hc)].
  - split; [done|]. by intros [_ (content & ? & _)].
Qed.

(** X2. /set-cookies answers 200 exactly when the body is a JSON object
    whose [cookies] member is a non-empty string, the cookie file can be
    opened for writing, and the write of the string and the closing of the
    file do not raise; the file then holds exactly that string. *)
Theorem set_cookies_ok_iff (env : CookieEnv) (disk : Disk) :
  code (set_cookies env disk).1 = 200
  ↔ ∃ fields s,
      ck_get_json env = Returned (JObj fields)
      ∧ dict_get "cookies" fields = Some (JStr s) ∧ s ≠ ""
      ∧ ck_open env = Returned ()
      ∧ ck_write env s = Written
      ∧ (set_cookies env disk).2
        = {| cookie_file := Some s; cookie_opens := S (cookie_opens disk) |}.
Proof.
  unfold set_cookies. split.
  - destruct (ck_get_json env) as [[| | | | |fields]|m]; cbn; try done.
    destruct (dict_get "cookies" fields) as [v|] eqn:Hv; cbn; [|done].
    destruct (json_truthy v) eqn:Htruthy; cbn; [|done].
    destruct (ck_open env) as [[]|m]; cbn; [|done].
    destruct v as [| | |s| |]; cbn; try done.
    destruct (ck_write env s) eqn:Hwrite; cbn; [|done].
    intros _. exists fields, s. repeat split; try done.
    intros ->. by cbn in Htruthy.
  - intros (fields & s & -> & Hv & Hs & -> & Hwrite & _). cbn. rewrite Hv. cbn.
    unfold str_truthy. rewrite bool_decide_eq_false_2 by done. cbn. by rewrite Hwrite.
Qed.

(** X3. A [cookies] member that is truthy but not a string (a number, a
    list, an object, [true]) is not rejected before the file is opened:
    the cookie file is truncated, the write fails, and the answer is 400
    with the previous cookies lost. *)
Theorem set_cookies_non_string_truncates (env : CookieEnv) (disk : Disk)
    (fields : list (string * json)) (v : json) :
  ck_get_json env = Returned (JObj fields) →
  dict_get "cookies" fields = Some v →
  json_truthy v = true →
  (∀ s, v ≠ JStr s) →
  ck_open env = Returned () →
  set_cookies env disk
  = (error_response "Failed to parse cookies" 400,
     {| cookie_file := Some ""; cookie_opens := S (cookie_opens disk) |}).
Proof.
  intros Hdata Hv Htruthy Hstr Hopen. unfold set_cookies.
  rewrite Hdata. cbn. rewrite Hv. cbn. rewrite Htruthy, Hopen. cbn.
  destruct v as [| | |s| |]; try done. by destruct (Hstr s).
Qed.

Lemma set_cookies_non_string_truncates_witness :
  set_cookies (ex_cookie_env (JObj [("cookies", JNum 1)])) ex_disk
  = (error_response "Failed to parse cookies" 400,
     {| cookie_file := Some ""; cookie_opens := 1 |}).
Proof.
  apply (set_cookies_non_string_truncates (ex_cookie_env (JObj [("cookies", JNum 1)]))
           ex_disk [("cookies", JNum 1)] (JNum 1));
    [reflexivity | reflexivity | reflexivity | discriminate | reflexivity].
Defined.

(** X4. When /set-cookies answers 500 the disk is as it was, and the
    request body was not a JSON object: reading it raised, or it was
    [null], a scalar or a list. *)
Theorem set_cookies_500_leaves_disk (env : CookieEnv) (disk : Disk) :
  code (set_cookies env disk).1 = 500 →
  (set_cookies env disk).2 = disk ∧ ∀ fields, ck_get_json env ≠ Returned (JObj fields).
Proof.
  unfold set_cookies.
  destruct (ck_get_json env) as [[| | | | |fields]|m]; cbn; try done.
  destruct (json_truthy _); cbn; [|done].
  destruct (parse_cookie_txt _ _ _) as [[] disk']; cbn; done.
Qed.

Lemma set_cookies_500_leaves_disk_witness :
  (set_cookies (ex_cookie_env JNull) ex_disk).2 = ex_disk
  ∧ ∀ fields, ck_get_json (ex_cookie_env JNull) ≠ Returned (JObj fields).
Proof. apply (set_cookies_500_leaves_disk (ex_cookie_env JNull) ex_disk). reflexivity. Defined.

(** X5. /upload-cookies without a [file] part, or with a part whose file
    name is empty, answers 400 and leaves the disk as it was, whatever the
    part holds. *)
Theorem upload_cookies_without_file (files : list (string * UploadedFile))
    (open_w : outcome unit) (write : string → WriteResult) (disk : Disk) :
  dict_get "file" files = None
  ∨ (∃ file, dict_get "file" files = Some file ∧ up_filename file = "") →
  code (upload_cookies files open_w write disk).1 = 400
  ∧ (upload_cookies files open_w write disk).2 = disk.
Proof.
  unfold upload_cookies. intros [-> | (file & -> & Hname)]; [done|].
  by rewrite bool_decide_eq_true_2.
Qed.

Lemma upload_cookies_without_file_witness :
  code (upload_cookies (ex_upload "" "x=1") (Returned ()) (λ _, Written) ex_disk).1 = 400
  ∧ (upload_cookies (ex_upload "" "x=1") (Returned ()) (λ _, Written) ex_disk).2 = ex_disk.
Proof.
  apply (upload_cookies_without_file (ex_upload "" "x=1") (Returned ()) (λ _, Written)
           ex_disk).
  right. eexists. split; reflexivity.
Defined.

(** X6. An uploaded file that has a name and decodes is written as it
    is, empty or blank content included, and answered with 200, when the
    cookie file opens and the write does not raise; from then
    on the extraction options carry the cookie file, and the start-up
    check accepts the file exactly when the content is not blank. *)
Theorem upload_cookies_round_trip (files : list (string * UploadedFile))
    (write : string → WriteResult) (disk : Disk)
    (file : UploadedFile) (content quality format_type : string) :
  dict_get "file" files = Some file →
  up_filename file ≠ "" →
  up_decoded file = Returned content →
  write content = Written →
  let result := upload_cookies files (Returned ()) write disk in
  code result.1 = 200
  ∧ cookie_file result.2 = Some content
  ∧ opt_cookiefile (get_yt_dlp_options quality format_type (cookie_exists result.2))
    = Some COOKIE_FILE
  ∧ initialize_cookies (cookie_exists result.2) (read_cookie_file result.2)
    = str_truthy (strip content).
Proof.
  intros Hfile Hname Hcontent Hwrite result. subst result. unfold upload_cookies.
  rewrite Hfile, bool_decide_eq_false_2, Hcontent by done.
  cbn [parse_cookie_txt]. by rewrite Hwrite.
Qed.

Lemma upload_cookies_round_trip_witness :
  let result :=
    upload_cookies (ex_upload "cookies.txt" "  ") (Returned ()) (λ _, Written) ex_disk in
  code result.1 = 200
  ∧ cookie_file result.2 = Some "  "
  ∧ opt_cookiefile (get_yt_dlp_options "best" "mp4" (cookie_exists result.2))
    = Some COOKIE_FILE
  ∧ initialize_cookies (cookie_exists result.2) (read_cookie_file result.2)
    = str_truthy (strip "  ").
Proof.
  apply (upload_cookies_round_trip (ex_upload "cookies.txt" "  ") (λ _, Written) ex_disk
           {| up_filename := "cookies.txt"; up_decoded := Returned "  " |} "  " "best" "mp4").
  - reflexivity.
  - discriminate.
  - reflexivity.
  - reflexivity.
Defined.

(** A blank upload is stored and then refused at start-up. *)
Lemma blank_upload_refused_at_startup :
  let result :=
    upload_cookies (ex_upload "cookies.txt" "  ") (Returned ()) (λ _, Written) ex_disk in
  initialize_cookies (cookie_exists result.2) (read_cookie_file result.2) = false.
Proof. reflexivity. Qed.

(** A write that raises after the file was opened leaves the file with
    what had reached it, and the request is answered with 400. *)
Lemma set_cookies_write_fails :
  set_cookies {| ck_get_json := Returned (JObj [("cookies", JStr "a=1")]);
                 ck_open := Returned (); ck_write := λ _, WriteRaised "" |} ex_disk
  = (error_response "Failed to parse cookies" 400,
     {| cookie_file := Some ""; cookie_opens := 1 |}).
Proof. reflexivity. Qed.

(** ** Reclamation *)

(** X7. When the scan of a cycle returns, the paths it hands to
    [os.remove] are exactly those of the listed regular files created more
    than 300 seconds before the cycle: no directory and no younger file is
    ever removed. *)
Theorem files_to_remove_exact (current_time : Z) (entries : list DirEntry)
    (paths : list string) (filepath : string) :
  files_to_remove current_time entries = Returned paths →
  filepath ∈ paths
  ↔ ∃ e file_time,
      e ∈ entries ∧ entry_isfile e = true ∧ entry_getctime e = Returned file_time
      ∧ current_time - file_time > timedelta 300
      ∧ filepath = path_join DOWNLOAD_DIR (entry_name e).
Proof.
  revert paths. induction entries as [|e rest IH]; intros paths.
  - intros [= <-]. split; [by intros ?%elem_of_nil|].
    by intros (e & c & ?%elem_of_nil & _).
  - cbn [files_to_remove].
    assert (Hskip : ∀ ps : list string, (filepath ∈ ps ↔ ∃ e0 c, e0 ∈ rest ∧ entry_isfile e0 = true
        ∧ entry_getctime e0 = Returned c ∧ current_time - c > timedelta 300
        ∧ filepath = path_join DOWNLOAD_DIR (entry_name e0)) →
      ¬ (entry_isfile e = true ∧ ∃ c, entry_getctime e = Returned c
           ∧ current_time - c > timedelta 300) →
      (filepath ∈ ps ↔ ∃ e0 c, e0 ∈ e :: rest ∧ entry_isfile e0 = true
        ∧ entry_getctime e0 = Returned c ∧ current_time - c > timedelta 300
        ∧ filepath = path_join DOWNLOAD_DIR (entry_name e0))).
    { intros ps -> Hnot. split.
      - intros (e0 & c & Hin & H). exists e0, c. split; [by right|done].
      - intros (e0 & c & [->|Hin]%elem_of_cons & Hfile & Hc & Hold & Hp).
        + destruct Hnot. eauto.
        + exists e0, c. done. }
    destruct (entry_isfile e) eqn:Hfile;
      [|intros Hrest; apply Hskip; [by apply IH|by intros [? _]]].
    destruct (entry_getctime e) as [file_time|m] eqn:Hctime; cbn; [|done].
    destruct (files_to_remove current_time rest) as [tail|m]; cbn; [|done].
    specialize (IH tail eq_refl). case_bool_decide as Hold; intros [= <-].
    + rewrite elem_of_cons, IH. split.
      * intros [->|(e0 & c & Hin & H)].
        -- exists e, file_time. split; [by left|done].
        -- exists e0, c. split; [by right|done].
      * intros (e0 & c & [->|Hin]%elem_of_cons & Hf & Hc & Ho & Hp); [by left|].
        right. by exists e0, c.
    + apply Hskip; [done|]. intros [_ (c & [= <-] & Ho)]. done.
Qed.

Lemma files_to_remove_exact_witness :
  "./downloads/old.mp4" ∈ ["./downloads/old.mp4"]
  ↔ ∃ e file_time,
      e ∈ ex_listing ∧ entry_isfile e = true ∧ entry_getctime e = Returned file_time
      ∧ timedelta 400 - file_time > timedelta 300
      ∧ "./downloads/old.mp4" = path_join DOWNLOAD_DIR (entry_name e).
Proof.
  apply (files_to_remove_exact (timedelta 400) ex_listing ["./downloads/old.mp4"]
           "./downloads/old.mp4").
  reflexivity.
Defined.

Lemma cleanup_files_cons (env : CleanupEnv) (envs : list CleanupEnv) (d : gmap string Job) :
  cleanup_files (env :: envs) d = cleanup_files envs (cycle_downloads (cleanup_cycle env d)).
Proof. done. Qed.

(** X8. Over any number of cycles, failed ones included, the registry
    only loses records, and a record stays, unchanged, as long as every
    cycle runs within 300 seconds of its timestamp. *)
Theorem cleanup_files_keeps_recent (envs : list CleanupEnv) (d : gmap string Job)
    (download_id : string) (info : Job) :
  d !! download_id = Some info →
  Forall (λ env, ¬ cl_now env - job_timestamp info > timedelta 300) envs →
  cleanup_files envs d !! download_id = Some info ∧ cleanup_files envs d ⊆ d.
Proof.
  intros Hinfo Hrecent. split.
  - revert d Hinfo. induction Hrecent as [|env envs Henv _ IH]; intros d Hinfo; [done|].
    rewrite cleanup_files_cons. apply IH. by apply cleanup_keeps_recent.
  - clear. revert d. induction envs as [|env envs IH]; intros d; [done|].
    rewrite cleanup_files_cons. etrans; [apply IH|apply cleanup_cycle_subseteq].
Qed.

Lemma cleanup_files_keeps_recent_witness :
  cleanup_files ex_three_cycles {[ "id-0" := ex_old_job ]} !! "id-0" = Some ex_old_job
  ∧ cleanup_files ex_three_cycles {[ "id-0" := ex_old_job ]} ⊆ {[ "id-0" := ex_old_job ]}.
Proof.
  apply (cleanup_files_keeps_recent ex_three_cycles {[ "id-0" := ex_old_job ]}
           "id-0" ex_old_job).
  - vm_compute. reflexivity.
  - repeat constructor; vm_compute; discriminate.
Defined.



(** ** Options and metadata *)

(** X17. Every sleep function of the options is non-decreasing in the
    retry count and stays between 1 and 60 seconds. *)
Theorem retry_sleep_monotone_bounded (quality format_type : string) (cookie_exists : bool) :
  Forall (λ kv : string * (N → N),
            ∀ n m : N, (n ≤ m → 1 ≤ kv.2 n ∧ kv.2 n ≤ kv.2 m ∧ kv.2 m ≤ 60)%N)
         (opt_retry_sleep_functions (get_yt_dlp_options quality format_type cookie_exists)).
Proof.
  assert (Hsleep : ∀ n m : N,
    (n ≤ m → 1 ≤ N.min (4 ^ n) 60 ∧ N.min (4 ^ n) 60 ≤ N.min (4 ^ m) 60
             ∧ N.min (4 ^ m) 60 ≤ 60)%N).
  { intros n m Hnm.
    assert (Hpow : (4 ^ n ≤ 4 ^ m)%N) by (by apply N.pow_le_mono_r).
    assert (Hpos : (4 ^ n ≠ 0)%N) by (by apply N.pow_nonzero).
    lia. }
  cbn. do 4 (constructor; [exact Hsleep|]). constructor.
Qed.

(** X18. For a non-empty description the [description] of /info is a
    prefix of it followed by an ellipsis, the prefix being the whole
    description when it has at most 500 characters and its first 500
    characters otherwise. *)
Theorem description_is_prefix_with_ellipsis (info : Info) (d : string) :
  info_description info = Some d → d ≠ "" →
  ∃ prefix rest,
    description_field info = prefix +:+ "..."
    ∧ d = prefix +:+ rest
    ∧ String.length prefix = Nat.min 500 (String.length d).
Proof.
  intros Hd Hne. destruct (str_take_prefix 500 d) as [rest Hrest].
  exists (str_take 500 d), rest. rewrite description_field_cases, Hd.
  split; [by destruct d|]. split; [done|apply str_take_length].
Qed.

Lemma description_is_prefix_with_ellipsis_witness :
  ∃ prefix rest,
    description_field ex_twelve_formats = prefix +:+ "..."
    ∧ "hello" = prefix +:+ rest
    ∧ String.length prefix = Nat.min 500 (String.length "hello").
Proof.
  apply (description_is_prefix_with_ellipsis ex_twelve_formats "hello");
    [reflexivity | discriminate].
Defined.
